(** * DetectTokensController (app/scripts/controllers/detect-tokens.js)

    A shallow embedding of the token detection controller of the wallet
    extension, and the properties of its detection pass, its timer and its
    activation gate.

    The controller is a JavaScript object whose fields are mutated by its own
    methods and by the callbacks it subscribes to its collaborators.  The
    embedding keeps the object as a record, threads it through every method,
    and keeps what lives outside the object (the timers of the host, the calls
    made to collaborators, the passes waiting for the balance reply) in a
    [World] around it. *)

From Stdlib Require Import Bool Arith ZArith NArith PArith List String Ascii Lia.
Import ListNotations.
Open Scope string_scope.

(** ** JavaScript values the controller handles *)

(** A token object of the tokens controller's state.  The detector reads
    nothing but its [address]. *)
Record Token : Type := mkToken { address : string }.

(** The values that reach [isEqualCaseInsensitive]: a string, a token object
    (line 98 hands the element of [hiddenTokens] over as it is), or
    [undefined]. *)
Inductive value : Type :=
| VUndefined
| VString (s : string)
| VToken (t : Token).

(** Truthiness of a string: only the empty string is falsy. *)
Definition truthy_string (s : string) : bool :=
  match s with
  | EmptyString => false
  | String _ _ => true
  end.

(** Truthiness of an optional string ([undefined] is falsy). *)
Definition truthy_ostring (o : option string) : bool :=
  match o with
  | Some s => truthy_string s
  | None => false
  end.

(** A flag field that is [undefined] until somebody assigns it. *)
Definition flag : Type := option bool.

Definition truthy_flag (f : flag) : bool :=
  match f with
  | Some b => b
  | None => false
  end.

(** [a && b] on flags: the first operand when it is falsy, else the second. *)
Definition js_and (a b : flag) : flag :=
  if truthy_flag a then b else a.

(** Strict equality [===] on flags and on optional strings. *)
Definition flag_eqb (a b : flag) : bool :=
  match a, b with
  | None, None => true
  | Some x, Some y => Bool.eqb x y
  | _, _ => false
  end.

Definition ostring_eqb (a b : option string) : bool :=
  match a, b with
  | None, None => true
  | Some x, Some y => String.eqb x y
  | _, _ => false
  end.

(** ** Case-insensitive comparison *)

(** [String.prototype.toLowerCase], on the ASCII letters an address is made
    of. *)
Definition lower_ascii (c : ascii) : ascii :=
  let n := N_of_ascii c in
  if (65 <=? n)%N && (n <=? 90)%N then ascii_of_N (n + 32) else c.

Fixpoint toLowerCase (s : string) : string :=
  match s with
  | EmptyString => EmptyString
  | String c r => String (lower_ascii c) (toLowerCase r)
  end.

(** Modelled from the spec: the helper [isEqualCaseInsensitive] is imported
    from ui/helpers/utils/util, which is not among the sources.  The spec asks
    for "case-insensitive address comparison": "addresses must be treated as
    equal regardless of letter case".  Two strings are compared after
    lower-casing; a value that is not a string is not an address and equals
    nothing. *)
Definition isEqualCaseInsensitive (value1 value2 : value) : bool :=
  match value1, value2 with
  | VString s1, VString s2 => String.eqb (toLowerCase s1) (toLowerCase s2)
  | _, _ => false
  end.

(** ** The address book: @metamask/contract-metadata *)

Record ContractMetadata : Type := mkContract {
  symbol : string;
  decimals : Z;
  erc20 : bool   (* absent in the JSON for what is not an ERC-20 token *)
}.

(** The static object [contracts].  Its keys are contract addresses, which
    are not array indices, so [for ... in] visits them in insertion order: the
    object is an association list in that order, and [contracts[k]] is the
    first entry under [k]. *)
Definition Contracts : Type := list (string * ContractMetadata).

Fixpoint lookup (contracts : Contracts) (k : string) : option ContractMetadata :=
  match contracts with
  | [] => None
  | (k', m) :: rest => if String.eqb k' k then Some m else lookup rest k
  end.

Definition keys (contracts : Contracts) : list string := map fst contracts.

(** ** Exceptions *)

Inductive Error : Type :=
| TypeError (what : string).

(** The outcome of code that may throw. *)
Inductive Completion (A : Type) : Type :=
| Normal (a : A)
| Throw (e : Error).
Arguments Normal {A} a.
Arguments Throw {A} e.

Definition bind {A B : Type} (m : Completion A) (k : A -> Completion B)
  : Completion B :=
  match m with
  | Normal a => k a
  | Throw e => Throw e
  end.

Notation "'let*' x ':=' m 'in' k" := (bind m (fun x => k))
  (at level 10, x name, m at level 100, k at level 200).

(** Reading a property of a field that may be [undefined]. *)
Definition deref {A : Type} (what : string) (o : option A) : Completion A :=
  match o with
  | Some a => Normal a
  | None => Throw (TypeError what)
  end.

(** ** Collaborators *)

Definition Provider : Type := string.

(** The network controller, as the detector reads it: the chain identifier of
    its store and its provider.  The detector keeps a reference to the live
    object; [_network] below holds its current content. *)
Record Network : Type := mkNetwork {
  chainId : string;
  _provider : Provider
}.

Record PreferencesStore : Type := mkPreferences {
  prefs_selectedAddress : option string
}.

Record TokensController : Type := mkTokensController {
  state_tokens : list Token;
  state_ignoredTokens : list Token
}.

(** The keyring memory store is only subscribed to, never read. *)
Inductive KeyringMemStore : Type := mkKeyring.

(** [new Web3(provider)] and [web3.setProvider]. *)
Record Web3 : Type := mkWeb3 { currentProvider : Provider }.

Definition Handle : Type := positive.

(** ** The controller object *)

Record DetectTokensController : Type := mkController {
  tokensController : option TokensController;
  preferences : option PreferencesStore;
  _network : option Network;
  web3 : option Web3;
  _keyringMemStore : option KeyringMemStore;
  selectedAddress : option string;
  tokenAddresses : option (list string);
  hiddenTokens : option (list Token);
  isOpen : flag;
  isUnlocked : flag;
  _handle : option Handle
}.

Definition with_collaborators (tc : option TokensController)
  (p : option PreferencesStore) (c : DetectTokensController) :=
  mkController tc p (_network c) (web3 c)
    (_keyringMemStore c) (selectedAddress c) (tokenAddresses c) (hiddenTokens c)
    (isOpen c) (isUnlocked c) (_handle c).

Definition with_selectedAddress (a : option string) (c : DetectTokensController) :=
  mkController (tokensController c) (preferences c) (_network c) (web3 c)
    (_keyringMemStore c) a (tokenAddresses c) (hiddenTokens c)
    (isOpen c) (isUnlocked c) (_handle c).

Definition with_tokens (ta : option (list string)) (ht : option (list Token))
  (c : DetectTokensController) :=
  mkController (tokensController c) (preferences c) (_network c) (web3 c)
    (_keyringMemStore c) (selectedAddress c) ta ht
    (isOpen c) (isUnlocked c) (_handle c).

Definition with_network (n : option Network) (w3 : option Web3)
  (c : DetectTokensController) :=
  mkController (tokensController c) (preferences c) n w3
    (_keyringMemStore c) (selectedAddress c) (tokenAddresses c) (hiddenTokens c)
    (isOpen c) (isUnlocked c) (_handle c).

Definition with_web3 (w3 : option Web3) (c : DetectTokensController) :=
  with_network (_network c) w3 c.

Definition with_keyringMemStore (k : option KeyringMemStore)
  (c : DetectTokensController) :=
  mkController (tokensController c) (preferences c) (_network c) (web3 c)
    k (selectedAddress c) (tokenAddresses c) (hiddenTokens c)
    (isOpen c) (isUnlocked c) (_handle c).

Definition with_isOpen (f : flag) (c : DetectTokensController) :=
  mkController (tokensController c) (preferences c) (_network c) (web3 c)
    (_keyringMemStore c) (selectedAddress c) (tokenAddresses c) (hiddenTokens c)
    f (isUnlocked c) (_handle c).

Definition with_isUnlocked (f : flag) (c : DetectTokensController) :=
  mkController (tokensController c) (preferences c) (_network c) (web3 c)
    (_keyringMemStore c) (selectedAddress c) (tokenAddresses c) (hiddenTokens c)
    (isOpen c) f (_handle c).

Definition with_handle (h : option Handle) (c : DetectTokensController) :=
  mkController (tokensController c) (preferences c) (_network c) (web3 c)
    (_keyringMemStore c) (selectedAddress c) (tokenAddresses c) (hiddenTokens c)
    (isOpen c) (isUnlocked c) h.

(** [get isActive()]: [this.isOpen && this.isUnlocked]. *)
Definition isActive (c : DetectTokensController) : flag :=
  js_and (isOpen c) (isUnlocked c).

(** Modelled from the spec: [MINUTE] comes from shared/constants/time, which is
    not among the sources.  Spec: "Default poll period: 180000 ms (3
    minutes)". *)
Definition MINUTE : Z := 60000.

(** By default, poll every 3 minutes *)
Definition DEFAULT_INTERVAL : Z := MINUTE * 3.

(** ** What the controller does to the outside *)

Inductive Effect : Type :=
| Balances (owner : option string) (tokens : list string)
    (* [ethContract.balances([this.selectedAddress], tokens, callback)] *)
| Warn (message error : string)
| AddToken (tokenAddress tokenSymbol : string) (tokenDecimals : Z).

(** What the callback of [balances] receives: an error, or the array of
    balances.  A balance is an unsigned 256-bit integer decoded as a
    BigNumber; the array may be shorter than the request or hold
    [undefined]. *)
Inductive Reply : Type :=
| ReplyError (error : string)
| ReplyResult (result : list (option N)).

(** [result[index]] *)
Definition result_at (result : list (option N)) (index : nat) : option N :=
  match nth_error result index with
  | Some b => b
  | None => None
  end.

(** [balance && !balance.isZero()] *)
Definition hasBalance (balance : option N) : bool :=
  match balance with
  | Some b => negb (N.eqb b 0)
  | None => false
  end.

(** How the promise of a pass ends. *)
Inductive Settled : Type :=
| Fulfilled
| RejectedWith (e : Error).

(** How far the synchronous part of a pass gets. *)
Inductive Started : Type :=
| Returned
    (* a guard returned: the promise is fulfilled and nothing was done *)
| Rejected (e : Error)
    (* an exception before the fetch *)
| Fetching (owner : option string) (tokensToDetect : list string).
    (* the batched call is out, the pass awaits its reply *)

Definition fetch_failed_message : string :=
  "MetaMask - DetectTokensController single call balance fetch failed".

Section Controller.

(** [MAINNET_CHAIN_ID] comes from shared/constants/network, which is not
    among the sources: the pass is stated for any value of it. *)
Variable MAINNET_CHAIN_ID : string.

(** The address book is data of the package @metamask/contract-metadata. *)
Variable contracts : Contracts.

(** [this.tokenAddresses.find(...)], line 71 *)
Definition find_tracked (tokenAddresses : list string) (contractAddress : string)
  : option string :=
  find (fun tokenAddress =>
          isEqualCaseInsensitive (VString tokenAddress) (VString contractAddress))
       tokenAddresses.

(** [this.hiddenTokens.find(...)], line 74: compares [token.address] *)
Definition find_hidden (hiddenTokens : list Token) (contractAddress : string)
  : option Token :=
  find (fun token =>
          isEqualCaseInsensitive (VString (address token)) (VString contractAddress))
       hiddenTokens.

(** [this.hiddenTokens.find(...)], line 98: compares the element itself *)
Definition find_ignored (hiddenTokens : list Token) (tokenAddress : string)
  : option Token :=
  find (fun ignoredTokenAddress =>
          isEqualCaseInsensitive (VToken ignoredTokenAddress) (VString tokenAddress))
       hiddenTokens.

(** The condition of lines 69-77, with the short-circuit of [&&]: a field
    that is [undefined] throws only when it is reached. *)
Definition shouldDetect (c : DetectTokensController) (contractAddress : string)
  : Completion bool :=
  let* meta := deref "contracts[contractAddress]" (lookup contracts contractAddress) in
  if negb (erc20 meta) then Normal false else
  let* tracked := deref "this.tokenAddresses" (tokenAddresses c) in
  if truthy_ostring (find_tracked tracked contractAddress) then Normal false else
  let* hidden := deref "this.hiddenTokens" (hiddenTokens c) in
  match find_hidden hidden contractAddress with
  | Some _ => Normal false
  | None => Normal true
  end.

(** The loop of lines 68-80 over the keys still to visit. *)
Fixpoint collect (c : DetectTokensController) (ks : list string)
  (tokensToDetect : list string) : Completion (list string) :=
  match ks with
  | [] => Normal tokensToDetect
  | contractAddress :: rest =>
      let* wanted := shouldDetect c contractAddress in
      collect c rest
        (if wanted then (tokensToDetect ++ [contractAddress])%list
         else tokensToDetect)
  end.

(** [detectNewTokens] up to its first [await] (lines 58-84). *)
Definition detect_begin (c : DetectTokensController)
  : DetectTokensController * Started :=
  if negb (truthy_flag (isActive c)) then (c, Returned) else
  match _network c with
  | None => (c, Rejected (TypeError "this._network"))
  | Some network =>
      if negb (String.eqb (chainId network) MAINNET_CHAIN_ID) then (c, Returned) else
      match web3 c with
      | None => (c, Rejected (TypeError "this.web3"))
      | Some _ =>
          let c1 := with_web3 (Some (mkWeb3 (_provider network))) c in
          match collect c1 (keys contracts) [] with
          | Throw e => (c1, Rejected e)
          | Normal tokensToDetect =>
              (c1, Fetching (selectedAddress c1) tokensToDetect)
          end
      end
  end.

(** The callback of [tokensToDetect.map] (lines 94-109), up to the call of
    [addToken]. *)
Definition registerToken (c : DetectTokensController) (result : list (option N))
  (tokenAddress : string) (index : nat) : Completion (list Effect) :=
  let balance := result_at result index in
  let* hidden := deref "this.hiddenTokens" (hiddenTokens c) in
  let ignored :=
    match hidden with
    | [] => None
    | _ :: _ => find_ignored hidden tokenAddress
    end in
  match ignored with
  | None =>
      if hasBalance balance then
        let* _ := deref "this.tokensController" (tokensController c) in
        let* meta := deref "contracts[tokenAddress]" (lookup contracts tokenAddress) in
        Normal [AddToken tokenAddress (symbol meta) (decimals meta)]
      else Normal []
  | Some _ => Normal []
  end.

(** [Promise.all(tokensToDetect.map(...))]: every callback runs, one that
    throws rejects its own promise only; the whole is rejected with the first
    rejection.  The promises of [addToken] are taken to be fulfilled. *)
Fixpoint registerAll (c : DetectTokensController) (result : list (option N))
  (tokensToDetect : list string) (index : nat) : list Effect * Settled :=
  match tokensToDetect with
  | [] => ([], Fulfilled)
  | tokenAddress :: rest =>
      let (later, settled) := registerAll c result rest (S index) in
      match registerToken c result tokenAddress index with
      | Normal now => ((now ++ later)%list, settled)
      | Throw e => (later, RejectedWith e)
      end
  end.

(** [detectNewTokens] from the reply on (lines 85-110); [c] is the
    controller as it is when the reply arrives. *)
Definition detect_resume (c : DetectTokensController)
  (tokensToDetect : list string) (reply : Reply) : list Effect * Settled :=
  match reply with
  | ReplyError error => ([Warn fetch_failed_message error], Fulfilled)
  | ReplyResult result => registerAll c result tokensToDetect 0
  end.

(** One whole pass.  [oracle] answers the batched call; [during] is what the
    subscriptions do to the controller while the pass awaits the answer. *)
Definition detectNewTokens (c : DetectTokensController)
  (oracle : option string -> list string -> Reply)
  (during : DetectTokensController -> DetectTokensController)
  : list Effect * Settled :=
  match detect_begin c with
  | (_, Returned) => ([], Fulfilled)
  | (_, Rejected e) => ([], RejectedWith e)
  | (c1, Fetching owner tokensToDetect) =>
      let (registered, settled) :=
        detect_resume (during c1) tokensToDetect (oracle owner tokensToDetect) in
      (Balances owner tokensToDetect :: registered, settled)
  end.


(** ** The world around the controller *)

(** The feeds a callback of the controller is subscribed to. *)
Inductive Feed : Type :=
| PreferencesFeed
| TokensFeed
| KeyringFeed.

Record World : Type := mkWorld {
  this : DetectTokensController;
  timers : list (Handle * Z);
    (* the repeating timers that are armed: handle and period *)
  next_handle : Handle;
  calls : list Effect;
    (* the calls made to collaborators, oldest first *)
  inflight : list (list string);
    (* [tokensToDetect] of each pass that awaits its reply *)
  rejected : list Error;
    (* the passes that ended in a rejected promise *)
  subscriptions : list Feed
}.

Definition update_this (f : DetectTokensController -> DetectTokensController)
  (w : World) : World :=
  mkWorld (f (this w)) (timers w) (next_handle w) (calls w) (inflight w)
    (rejected w) (subscriptions w).

Definition subscribe (f : Feed) (w : World) : World :=
  mkWorld (this w) (timers w) (next_handle w) (calls w) (inflight w)
    (rejected w) (subscriptions w ++ [f]).

(** [clearInterval(handle)] *)
Definition clearInterval (h : Handle) (w : World) : World :=
  mkWorld (this w)
    (filter (fun t => negb (Pos.eqb (fst t) h)) (timers w))
    (next_handle w) (calls w) (inflight w) (rejected w) (subscriptions w).

(** [setInterval(callback, interval)]: arms a timer under a fresh handle.
    The callback is always [() => this.detectNewTokens()]. *)
Definition setInterval (interval : Z) (w : World) : Handle * World :=
  (next_handle w,
   mkWorld (this w) (timers w ++ [(next_handle w, interval)])
     (Pos.succ (next_handle w)) (calls w) (inflight w) (rejected w)
     (subscriptions w)).

(** [set interval(interval)], lines 144-152.  A handle is a positive number,
    hence truthy; the only falsy interval of a number that is an integer is
    zero. *)
Definition set_interval (interval : Z) (w : World) : World :=
  let w1 :=
    match _handle (this w) with
    | Some h => clearInterval h w
    | None => w
    end in
  if Z.eqb interval 0 then w1 else
  let (h, w2) := setInterval interval w1 in
  update_this (with_handle (Some h)) w2.

(** [set network(network)], lines 157-163 *)
Definition set_network (network : option Network) (w : World) : World :=
  match network with
  | None => w
  | Some n =>
      update_this (with_network (Some n) (Some (mkWeb3 (_provider n)))) w
  end.

(** A call of [detectNewTokens()]: the pass runs up to its first [await]. *)
Definition invoke_detectNewTokens (w : World) : World :=
  match detect_begin (this w) with
  | (c, Returned) =>
      mkWorld c (timers w) (next_handle w) (calls w) (inflight w)
        (rejected w) (subscriptions w)
  | (c, Rejected e) =>
      mkWorld c (timers w) (next_handle w) (calls w) (inflight w)
        (rejected w ++ [e]) (subscriptions w)
  | (c, Fetching owner tokensToDetect) =>
      mkWorld c (timers w) (next_handle w)
        (calls w ++ [Balances owner tokensToDetect])
        (inflight w ++ [tokensToDetect])
        (rejected w) (subscriptions w)
  end.

(** The reply to the [k]-th pass in flight arrives: the pass goes on from
    its [await] with the controller as it is now. *)
Definition resume_detectNewTokens (k : nat) (reply : Reply) (w : World) : World :=
  match nth_error (inflight w) k with
  | None => w
  | Some tokensToDetect =>
      let (effects, settled) := detect_resume (this w) tokensToDetect reply in
      mkWorld (this w) (timers w) (next_handle w)
        (calls w ++ effects)
        (firstn k (inflight w) ++ skipn (S k) (inflight w))
        (match settled with
         | Fulfilled => rejected w
         | RejectedWith e => rejected w ++ [e]
         end)
        (subscriptions w)
  end.

(** [restartTokenDetection()], lines 132-138 *)
Definition restartTokenDetection (w : World) : World :=
  if negb (truthy_flag (isActive (this w))
           && truthy_ostring (selectedAddress (this w)))
  then w
  else set_interval DEFAULT_INTERVAL (invoke_detectNewTokens w).

(** The callback subscribed to the keyring memory store, lines 174-181 *)
Definition on_keyring (unlocked : flag) (w : World) : World :=
  if negb (flag_eqb (isUnlocked (this w)) unlocked) then
    let w1 := update_this (with_isUnlocked unlocked) w in
    if truthy_flag unlocked then restartTokenDetection w1 else w1
  else w.

(** [set keyringMemStore(keyringMemStore)], lines 169-182 *)
Definition set_keyringMemStore (k : option KeyringMemStore) (w : World) : World :=
  match k with
  | None => w
  | Some store =>
      subscribe KeyringFeed (update_this (with_keyringMemStore (Some store)) w)
  end.

(** The callback subscribed to the preferences store, lines 41-46 *)
Definition on_preferences (selected : option string) (w : World) : World :=
  if negb (ostring_eqb (selectedAddress (this w)) selected) then
    restartTokenDetection (update_this (with_selectedAddress selected) w)
  else w.

(** The callback subscribed to the tokens controller, lines 47-52: a list
    that is missing from the new state counts as empty. *)
Definition on_tokens (tokens ignoredTokens : option (list Token)) (w : World)
  : World :=
  let tokens' := match tokens with Some l => l | None => [] end in
  let ignored' := match ignoredTokens with Some l => l | None => [] end in
  update_this (with_tokens (Some (map address tokens')) (Some ignored')) w.

(** ** Construction *)

Record Config : Type := mkConfig {
  cfg_interval : option Z;   (* [undefined] takes [DEFAULT_INTERVAL] *)
  cfg_preferences : option PreferencesStore;
  cfg_network : option Network;
  cfg_keyringMemStore : option KeyringMemStore;
  cfg_tokensController : option TokensController
}.

(** The object before the constructor body runs: every field [undefined]. *)
Definition blank : DetectTokensController :=
  mkController None None None None None None None None None None None.

Definition fresh_world : World := mkWorld blank [] 1%positive [] [] [] [].

(** [constructor], lines 23-53, statement by statement. *)
Definition constructor (cfg : Config) : World :=
  let interval :=
    match cfg_interval cfg with Some i => i | None => DEFAULT_INTERVAL end in
  let w := update_this
             (with_collaborators (cfg_tokensController cfg) (cfg_preferences cfg))
             fresh_world in
  let w := set_interval interval w in
  let w := set_network (cfg_network cfg) w in
  let w := set_keyringMemStore (cfg_keyringMemStore cfg) w in
  let w := update_this
             (with_selectedAddress
                match preferences (this w) with
                | Some p => prefs_selectedAddress p
                | None => None
                end) w in
  let w := update_this
             (with_tokens
                (option_map (fun tc => map address (state_tokens tc))
                            (tokensController (this w)))
                (option_map state_ignoredTokens (tokensController (this w)))) w in
  let w := match cfg_preferences cfg with
           | Some _ => subscribe PreferencesFeed w
           | None => w
           end in
  match cfg_tokensController cfg with
  | Some _ => subscribe TokensFeed w
  | None => w
  end.

(** ** What can happen to a constructed controller *)

Inductive Event : Type :=
| Tick (h : Handle)                       (* the timer [h] fires *)
| PreferencesChanged (selected : option string)
| TokensChanged (tokens ignoredTokens : option (list Token))
| KeyringChanged (unlocked : flag)
| NetworkChanged (n : Network)            (* the live network object changes *)
| BalancesReplied (k : nat) (reply : Reply)
| CallDetectNewTokens
| CallRestartTokenDetection
| AssignInterval (interval : Z)
| AssignNetwork (network : option Network)
| AssignKeyringMemStore (k : option KeyringMemStore)
| AssignIsOpen (f : flag).                (* the host: [controller.isOpen = f] *)

(** A feed calls back once for each subscription to it. *)
Fixpoint deliver (f : Feed) (callback : World -> World) (subs : list Feed)
  (w : World) : World :=
  match subs with
  | [] => w
  | f' :: rest =>
      let w1 :=
        match f, f' with
        | PreferencesFeed, PreferencesFeed
        | TokensFeed, TokensFeed
        | KeyringFeed, KeyringFeed => callback w
        | _, _ => w
        end in
      deliver f callback rest w1
  end.

Definition step (e : Event) (w : World) : World :=
  match e with
  | Tick h =>
      if existsb (fun t => Pos.eqb (fst t) h) (timers w)
      then invoke_detectNewTokens w else w
  | PreferencesChanged selected =>
      deliver PreferencesFeed (on_preferences selected) (subscriptions w) w
  | TokensChanged tokens ignoredTokens =>
      deliver TokensFeed (on_tokens tokens ignoredTokens) (subscriptions w) w
  | KeyringChanged unlocked =>
      deliver KeyringFeed (on_keyring unlocked) (subscriptions w) w
  | NetworkChanged n =>
      match _network (this w) with
      | Some _ => update_this (fun c => with_network (Some n) (web3 c) c) w
      | None => w
      end
  | BalancesReplied k reply => resume_detectNewTokens k reply w
  | CallDetectNewTokens => invoke_detectNewTokens w
  | CallRestartTokenDetection => restartTokenDetection w
  | AssignInterval interval => set_interval interval w
  | AssignNetwork network => set_network network w
  | AssignKeyringMemStore k => set_keyringMemStore k w
  | AssignIsOpen f => update_this (with_isOpen f) w
  end.

Fixpoint run (events : list Event) (w : World) : World :=
  match events with
  | [] => w
  | e :: rest => run rest (step e w)
  end.

(** The events that are not the host assigning [isOpen]. *)
Definition internal (e : Event) : Prop :=
  match e with
  | AssignIsOpen _ => False
  | _ => True
  end.

(** ** Predicates of the statements *)

(** The effects of a callback, none when it throws. *)
Definition effects_of (m : Completion (list Effect)) : list Effect :=
  match m with
  | Normal l => l
  | Throw _ => []
  end.

(** Membership of the sets the candidate set is made of, with the comparison
    of the code. *)
Definition fungible (a : string) : Prop :=
  exists m, lookup contracts a = Some m /\ erc20 m = true.

Definition tracked (c : DetectTokensController) (a : string) : Prop :=
  exists l x, tokenAddresses c = Some l /\ In x l
              /\ toLowerCase x = toLowerCase a.

Definition ignored (c : DetectTokensController) (a : string) : Prop :=
  exists l t, hiddenTokens c = Some l /\ In t l
              /\ toLowerCase (address t) = toLowerCase a.

(** Every armed timer is the one the controller holds the handle of, and
    there is at most one. *)
Definition one_timer (w : World) : Prop :=
  timers w = []
  \/ exists h i, timers w = [(h, i)] /\ _handle (this w) = Some h.

(** Nothing has been opened, called or started. *)
Definition dormant (w : World) : Prop :=
  isOpen (this w) = None
  /\ calls w = [] /\ inflight w = [] /\ rejected w = [].

(** No snapshot of the registry was taken and no callback will bring one. *)
Definition no_registry (w : World) : Prop :=
  tokenAddresses (this w) = None
  /\ hiddenTokens (this w) = None
  /\ ~ In TokensFeed (subscriptions w)
  /\ (_network (this w) <> None -> web3 (this w) <> None).

Ltac case_if :=
  match goal with
  | |- context [if ?b then _ else _] => destruct b
  end.

(** Whether the loop of lines 68-80 pushes a key. *)
Definition candidateb (c : DetectTokensController) (a : string) : bool :=
  match shouldDetect c a with
  | Normal true => true
  | _ => false
  end.

(** Two states of the object that differ at most in [web3] and [_handle],
    the fields a pass and the interval setter write. *)
Definition same_but_transport (c c' : DetectTokensController) : Prop :=
  tokensController c' = tokensController c
  /\ preferences c' = preferences c
  /\ _network c' = _network c
  /\ _keyringMemStore c' = _keyringMemStore c
  /\ selectedAddress c' = selectedAddress c
  /\ tokenAddresses c' = tokenAddresses c
  /\ hiddenTokens c' = hiddenTokens c
  /\ isOpen c' = isOpen c
  /\ isUnlocked c' = isUnlocked c.

(** The entry of the address book a registration was made from. *)
Definition from_book (a s : string) (d : Z) : Prop :=
  exists m, lookup contracts a = Some m /\ erc20 m = true
            /\ s = symbol m /\ d = decimals m.

(** Every pass in flight was asked for, every address asked for is a fungible
    entry of the address book, and every registration is made from the
    address book for an address that was asked for. *)
Definition accounted (w : World) : Prop :=
  (forall ts, In ts (inflight w) -> exists owner, In (Balances owner ts) (calls w))
  /\ (forall owner ts a, In (Balances owner ts) (calls w) -> In a ts -> fungible a)
  /\ (forall a s d, In (AddToken a s d) (calls w) ->
        from_book a s d
        /\ exists owner ts, In (Balances owner ts) (calls w) /\ In a ts).

(** Every collaborator a pass reads is there, and no pass was rejected. *)
Definition configured (w : World) : Prop :=
  tokensController (this w) <> None
  /\ tokenAddresses (this w) <> None
  /\ hiddenTokens (this w) <> None
  /\ _network (this w) <> None
  /\ web3 (this w) <> None
  /\ rejected w = []
  /\ (forall ts a, In ts (inflight w) -> In a ts -> lookup contracts a <> None).

(** The network the controller is bound to is not mainnet. *)
Definition off_mainnet (w : World) : Prop :=
  exists n, _network (this w) = Some n /\ chainId n <> MAINNET_CHAIN_ID.

(** The events that neither rebind the network nor answer a pass in
    flight. *)
Definition keeps_network (e : Event) : Prop :=
  match e with
  | NetworkChanged _ | AssignNetwork _ | BalancesReplied _ _ => False
  | _ => True
  end.

(** ** The controller at work: a small address book on mainnet *)

Definition mainnet : string := "0x1".
Definition account : string := "0x0DCD5D886577d5081B0c52e242Ef29E70Be3E7bc".
Definition dai : string := "0x6B175474E89094C44Da98b954EedeAC495271d0F".
Definition usdc : string := "0xA0b86991c6218b36c1d19D4a2e9Eb0cE3606eB48".
Definition kitties : string := "0x06012c8cf97BEaD5deAe237070F9587f8E7A266d".

Definition book : Contracts :=
  [ (dai, mkContract "DAI" 18 true);
    (kitties, mkContract "CK" 0 false);
    (usdc, mkContract "USDC" 6 true) ].

(** An unlocked, open controller on mainnet. *)
Definition active_controller (trackedAddresses : list string)
  (hidden : list Token) : DetectTokensController :=
  mkController (Some (mkTokensController [] hidden))
    (Some (mkPreferences (Some account)))
    (Some (mkNetwork mainnet "provider")) (Some (mkWeb3 "provider"))
    (Some mkKeyring) (Some account) (Some trackedAddresses) (Some hidden)
    (Some true) (Some true) (Some 1%positive).

Definition full_config : Config :=
  mkConfig None (Some (mkPreferences (Some account)))
    (Some (mkNetwork mainnet "provider")) (Some mkKeyring)
    (Some (mkTokensController [] [])).

Definition config_without_tokensController : Config :=
  mkConfig None (Some (mkPreferences (Some account)))
    (Some (mkNetwork mainnet "provider")) (Some mkKeyring) None.

(** The host opens the popup, then the keyring reports the unlock. *)
Definition open_and_unlock : list Event :=
  [AssignIsOpen (Some true); KeyringChanged (Some true)].

Definition no_balance (_ : option string) (tokens : list string) : Reply :=
  ReplyResult (map (fun _ => Some 0%N) tokens).

Definition unreachable_node (_ : option string) (_ : list string) : Reply :=
  ReplyError "timeout".

Definition untouched (c : DetectTokensController) : DetectTokensController := c.

Definition ropsten : string := "0x3".

(** An address book that lists a collectible only. *)
Definition collectibles_book : Contracts :=
  [ (kitties, mkContract "CK" 0 false) ].

(** An active controller on mainnet that was given a network and nothing
    else. *)
Definition bare_controller : DetectTokensController :=
  mkController None None
    (Some (mkNetwork mainnet "provider")) (Some (mkWeb3 "provider"))
    None None None None (Some true) (Some true) None.

Definition testnet_config : Config :=
  mkConfig None (Some (mkPreferences (Some account)))
    (Some (mkNetwork ropsten "provider")) (Some mkKeyring)
    (Some (mkTokensController [] [])).

Definition config_without_preferences : Config :=
  mkConfig None None (Some (mkNetwork mainnet "provider")) (Some mkKeyring)
    (Some (mkTokensController [] [])).

Definition config_without_keyring : Config :=
  mkConfig None (Some (mkPreferences (Some account)))
    (Some (mkNetwork mainnet "provider")) None
    (Some (mkTokensController [] [])).

Definition five_dai (_ : option string) (_ : list string) : Reply :=
  ReplyResult [Some 5%N; Some 0%N].

(** ** Case-insensitive comparison *)



(** A token object is not a string: the comparison of line 98 never holds. *)
Lemma find_ignored_none (hidden : list Token) (tokenAddress : string) :
  find_ignored hidden tokenAddress = None.
Proof.
  unfold find_ignored.
  induction hidden as [|t rest IH]; simpl; [reflexivity | exact IH].
Qed.



(** ** The candidate list *)

Lemma lookup_In_keys (k : string) (m : ContractMetadata) :
  lookup contracts k = Some m -> In k (keys contracts).
Proof.
  unfold keys. induction contracts as [|[k' m'] rest IH]; simpl; [discriminate|].
  destruct (String.eqb k' k) eqn:Hk.
  - apply String.eqb_eq in Hk. intros _. left. exact Hk.
  - intros H. right. exact (IH H).
Qed.

Lemma keys_In_lookup (k : string) :
  In k (keys contracts) -> exists m, lookup contracts k = Some m.
Proof.
  unfold keys. induction contracts as [|[k' m'] rest IH]; simpl; [tauto|].
  intros [Hk | Hin].
  - subst k'. rewrite String.eqb_refl. eauto.
  - destruct (String.eqb k' k); eauto.
Qed.

(** When the condition of lines 69-77 holds. *)
Lemma shouldDetect_true (c : DetectTokensController) (a : string) :
  shouldDetect c a = Normal true
  <-> exists m tracked hidden,
        lookup contracts a = Some m /\ erc20 m = true
        /\ tokenAddresses c = Some tracked
        /\ truthy_ostring (find_tracked tracked a) = false
        /\ hiddenTokens c = Some hidden
        /\ find_hidden hidden a = None.
Proof.
  unfold shouldDetect. split.
  - destruct (lookup contracts a) as [m|]; simpl; [|discriminate].
    destruct (erc20 m) eqn:He; simpl; [|discriminate].
    destruct (tokenAddresses c) as [tracked|]; simpl; [|discriminate].
    destruct (truthy_ostring (find_tracked tracked a)) eqn:Ht; [discriminate|].
    destruct (hiddenTokens c) as [hidden|]; simpl; [|discriminate].
    destruct (find_hidden hidden a) eqn:Hh; [discriminate|].
    intros _. exists m, tracked, hidden. repeat split; assumption.
  - intros (m & tracked & hidden & Hm & He & Ht & Hf & Hh & Hn).
    rewrite Hm. simpl. rewrite He. simpl. rewrite Ht. simpl. rewrite Hf.
    rewrite Hh. simpl. rewrite Hn. reflexivity.
Qed.

(** The loop pushes exactly the keys for which the condition holds. *)
Lemma collect_In (c : DetectTokensController) (ks acc tokensToDetect : list string) :
  collect c ks acc = Normal tokensToDetect ->
  forall a, In a tokensToDetect
            <-> In a acc \/ (In a ks /\ shouldDetect c a = Normal true).
Proof.
  revert acc. induction ks as [|k rest IH]; simpl; intros acc Hc a.
  - injection Hc as <-. tauto.
  - destruct (shouldDetect c k) as [wanted|e] eqn:Hk; simpl in Hc; [|discriminate].
    rewrite (IH _ Hc a). destruct wanted.
    + rewrite in_app_iff. simpl. split.
      * intros [[H | [H | []]] | [H1 H2]]; subst; auto.
      * intros [H | [[H | H] H2]]; subst; auto.
    + split.
      * intros [H | [H1 H2]]; auto.
      * intros [H | [[H | H] H2]]; subst; auto. congruence.
Qed.

(** The pass reaches the fetch exactly when it is active, on mainnet, and the
    loop does not throw; the candidates are then those of the loop. *)
Lemma detect_begin_Fetching (c c1 : DetectTokensController)
  (owner : option string) (tokensToDetect : list string) :
  detect_begin c = (c1, Fetching owner tokensToDetect) ->
  truthy_flag (isActive c) = true
  /\ (exists n, _network c = Some n /\ chainId n = MAINNET_CHAIN_ID
                /\ c1 = with_web3 (Some (mkWeb3 (_provider n))) c)
  /\ owner = selectedAddress c
  /\ collect c1 (keys contracts) [] = Normal tokensToDetect.
Proof.
  unfold detect_begin.
  destruct (truthy_flag (isActive c)); simpl; [|discriminate].
  destruct (_network c) as [n|]; [|discriminate].
  destruct (String.eqb (chainId n) MAINNET_CHAIN_ID) eqn:Hchain; simpl;
    [|discriminate].
  destruct (web3 c); [|discriminate].
  destruct (collect _ (keys contracts) []) as [ts|e] eqn:Hc; [|discriminate].
  intros H. injection H as <- <- <-.
  apply String.eqb_eq in Hchain. repeat split; eauto.
Qed.


(** ** The registration phase *)

(** What one callback of the registration phase can do: nothing, or one
    [addToken] with the metadata of the address book. *)
Lemma registerToken_effects (c : DetectTokensController)
  (result : list (option N)) (a : string) (i : nat) (e : Effect) :
  In e (effects_of (registerToken c result a i))
  <-> exists m, e = AddToken a (symbol m) (decimals m)
                /\ lookup contracts a = Some m
                /\ hasBalance (result_at result i) = true
                /\ hiddenTokens c <> None
                /\ tokensController c <> None.
Proof.
  unfold registerToken.
  destruct (hiddenTokens c) as [hidden|]; simpl.
  2:{ split; [tauto | intros (m & _ & _ & _ & H & _); congruence]. }
  assert (Hig : match hidden with
                | [] => None
                | _ :: _ => find_ignored hidden a
                end = None).
  { destruct hidden; [reflexivity | apply find_ignored_none]. }
  rewrite Hig.
  destruct (hasBalance (result_at result i)); simpl.
  2:{ split; [tauto | intros (m & _ & _ & H & _); discriminate]. }
  destruct (tokensController c) as [tc|]; simpl.
  2:{ split; [tauto | intros (m & _ & _ & _ & _ & H); congruence]. }
  destruct (lookup contracts a) as [m|]; simpl.
  2:{ split; [tauto | intros (m & _ & H & _); discriminate]. }
  split.
  - intros [<- | []]. exists m. repeat split; congruence.
  - intros (m' & -> & Hm & _). injection Hm as <-. left. reflexivity.
Qed.

(** The effects of the whole phase are those of the callbacks, the [k]-th
    callback being handed the [k]-th candidate and the index [k]. *)
Lemma registerAll_In (c : DetectTokensController) (result : list (option N))
  (tokensToDetect : list string) (index : nat) (e : Effect) :
  In e (fst (registerAll c result tokensToDetect index))
  <-> exists k a, nth_error tokensToDetect k = Some a
                  /\ In e (effects_of (registerToken c result a (index + k))).
Proof.
  revert index. induction tokensToDetect as [|a0 rest IH]; intros index; simpl.
  - split; [tauto|]. intros (k & a & Hk & _). destruct k; discriminate.
  - specialize (IH (S index)).
    destruct (registerAll c result rest (S index)) as [later settled].
    simpl in IH.
    assert (Hhere : In e (fst match registerToken c result a0 index with
                              | Normal now => ((now ++ later)%list, settled)
                              | Throw e0 => (later, RejectedWith e0)
                              end)
                    <-> In e (effects_of (registerToken c result a0 index))
                        \/ In e later).
    { destruct (registerToken c result a0 index); simpl;
        [apply in_app_iff | tauto]. }
    rewrite Hhere, IH. split.
    + intros [H | (k & a & Hk & H)].
      * exists 0%nat, a0. rewrite Nat.add_0_r. auto.
      * exists (S k), a. rewrite Nat.add_succ_r. auto.
    + intros (k & a & Hk & H). destruct k as [|k]; simpl in Hk.
      * injection Hk as <-. rewrite Nat.add_0_r in H. auto.
      * right. exists k, a. rewrite Nat.add_succ_r in H. auto.
Qed.

Lemma detect_resume_no_Balances (c : DetectTokensController)
  (tokensToDetect : list string) (reply : Reply)
  (owner : option string) (tokens : list string) :
  ~ In (Balances owner tokens) (fst (detect_resume c tokensToDetect reply)).
Proof.
  destruct reply as [error|result]; simpl.
  - intros [H | []]. discriminate.
  - intros H. apply registerAll_In in H. destruct H as (k & a & _ & H).
    apply registerToken_effects in H. destruct H as (m & H & _). discriminate.
Qed.


Lemma candidate_iff (c c1 : DetectTokensController) (owner : option string)
  (tokensToDetect : list string) :
  detect_begin c = (c1, Fetching owner tokensToDetect) ->
  forall a, In a tokensToDetect
            <-> In a (keys contracts) /\ shouldDetect c a = Normal true.
Proof.
  intros Hb a.
  destruct (detect_begin_Fetching _ _ _ _ Hb) as (_ & (n & _ & _ & ->) & _ & Hc).
  rewrite (collect_In _ _ _ _ Hc a). simpl.
  assert (Hsame : shouldDetect (with_web3 (Some (mkWeb3 (_provider n))) c) a
                  = shouldDetect c a) by reflexivity.
  rewrite Hsame. tauto.
Qed.

(** ** The claims about one detection pass *)



(** C4: unless [isOpen] and [isUnlocked] are both true and the chain of the
    network is the mainnet chain, a call of [detectNewTokens] returns at once:
    the controller is as before, the promise is fulfilled, and the pass makes
    no call at all, whatever the flags and the chain identifier are. *)
Theorem detectNewTokens_gate (c : DetectTokensController)
  (oracle : option string -> list string -> Reply)
  (during : DetectTokensController -> DetectTokensController) :
  isOpen c <> Some true \/ isUnlocked c <> Some true
  \/ (exists n, _network c = Some n /\ chainId n <> MAINNET_CHAIN_ID) ->
  detect_begin c = (c, Returned)
  /\ detectNewTokens c oracle during = ([], Fulfilled).
Proof.
  intros Hgate.
  assert (Hb : detect_begin c = (c, Returned)).
  { unfold detect_begin, isActive, js_and.
    destruct (isOpen c) as [[|]|]; simpl; try reflexivity.
    destruct (isUnlocked c) as [[|]|]; simpl; try reflexivity.
    destruct Hgate as [H | [H | (n & Hn & Hchain)]]; try congruence.
    rewrite Hn.
    destruct (String.eqb (chainId n) MAINNET_CHAIN_ID) eqn:Heq; simpl;
      [|reflexivity].
    apply String.eqb_eq in Heq. congruence. }
  split; [exact Hb|].
  unfold detectNewTokens. rewrite Hb. reflexivity.
Qed.

(** C5: when the batched balance fetch fails, the pass logs one warning under
    the fixed message of the fetch, calls [addToken] not once, and its promise
    is fulfilled: the error does not reach the caller. *)
Theorem fetch_failure_warns_once (c c1 : DetectTokensController)
  (oracle : option string -> list string -> Reply)
  (during : DetectTokensController -> DetectTokensController)
  (owner : option string) (tokens : list string) (error : string) :
  detect_begin c = (c1, Fetching owner tokens) ->
  oracle owner tokens = ReplyError error ->
  detectNewTokens c oracle during
  = ([Balances owner tokens; Warn fetch_failed_message error], Fulfilled)
  /\ detect_resume (during c1) tokens (ReplyError error)
     = ([Warn fetch_failed_message error], Fulfilled).
Proof.
  intros Hb Hfail. split; [|reflexivity].
  unfold detectNewTokens. rewrite Hb, Hfail. reflexivity.
Qed.


(** ** The timer *)

(** The synchronous part of a pass touches no field but [web3]. *)
Lemma detect_begin_this (c : DetectTokensController) :
  fst (detect_begin c) = c
  \/ exists p, fst (detect_begin c) = with_web3 (Some p) c.
Proof.
  unfold detect_begin.
  destruct (negb (truthy_flag (isActive c))); [left; reflexivity|].
  destruct (_network c) as [n|]; [|left; reflexivity].
  destruct (negb (String.eqb (chainId n) MAINNET_CHAIN_ID)); [left; reflexivity|].
  destruct (web3 c); [|left; reflexivity].
  right. exists (mkWeb3 (_provider n)).
  destruct (collect _ (keys contracts) []); reflexivity.
Qed.

Lemma invoke_detectNewTokens_timers (w : World) :
  timers (invoke_detectNewTokens w) = timers w
  /\ next_handle (invoke_detectNewTokens w) = next_handle w
  /\ _handle (this (invoke_detectNewTokens w)) = _handle (this w)
  /\ subscriptions (invoke_detectNewTokens w) = subscriptions w.
Proof.
  unfold invoke_detectNewTokens.
  pose proof (detect_begin_this (this w)) as Hthis.
  destruct (detect_begin (this w)) as [c [|e|o ts]]; simpl in *;
    (destruct Hthis as [-> | [p ->]]; repeat split; reflexivity).
Qed.

Lemma set_interval_timers (interval : Z) (w : World) :
  one_timer w ->
  timers (set_interval interval w)
  = (if Z.eqb interval 0 then [] else [(next_handle w, interval)])
  /\ _handle (this (set_interval interval w))
     = (if Z.eqb interval 0 then _handle (this w) else Some (next_handle w)).
Proof.
  intros [Hnone | (h & i & Hone & Hh)]; unfold set_interval.
  - destruct (_handle (this w)) as [h|] eqn:Hh;
      destruct (Z.eqb interval 0); simpl; rewrite ?Hnone; simpl; auto.
  - rewrite Hh.
    destruct (Z.eqb interval 0); simpl; rewrite Hone; simpl;
      rewrite Pos.eqb_refl; simpl; auto.
Qed.

Lemma set_interval_one_timer (interval : Z) (w : World) :
  one_timer w -> one_timer (set_interval interval w).
Proof.
  intros Hw. destruct (set_interval_timers interval w Hw) as [Ht Hh].
  unfold one_timer. rewrite Ht, Hh.
  destruct (Z.eqb interval 0); [left; reflexivity|].
  right. eauto.
Qed.

Lemma invoke_detectNewTokens_one_timer (w : World) :
  one_timer w -> one_timer (invoke_detectNewTokens w).
Proof.
  destruct (invoke_detectNewTokens_timers w) as (Ht & _ & Hh & _).
  unfold one_timer. rewrite Ht, Hh. tauto.
Qed.

Lemma restartTokenDetection_one_timer (w : World) :
  one_timer w -> one_timer (restartTokenDetection w).
Proof.
  intros Hw. unfold restartTokenDetection.
  destruct (negb _); [exact Hw|].
  apply set_interval_one_timer, invoke_detectNewTokens_one_timer, Hw.
Qed.

(** A property every callback keeps is kept by the delivery to all
    subscribers. *)
Lemma deliver_preserves (P : World -> Prop) (f : Feed)
  (callback : World -> World) (subs : list Feed) (w : World) :
  (forall w', P w' -> P (callback w')) ->
  P w -> P (deliver f callback subs w).
Proof.
  intros Hcb. revert w.
  induction subs as [|f' rest IH]; simpl; intros w Hw; [exact Hw|].
  apply IH. destruct f, f'; auto.
Qed.

Lemma step_one_timer (e : Event) (w : World) :
  one_timer w -> one_timer (step e w).
Proof.
  intros Hw. destruct e; simpl.
  - case_if; [apply invoke_detectNewTokens_one_timer|]; exact Hw.
  - apply deliver_preserves; [|exact Hw].
    intros w' Hw'. unfold on_preferences.
    destruct (negb _); [|exact Hw'].
    apply restartTokenDetection_one_timer. exact Hw'.
  - apply deliver_preserves; [|exact Hw].
    intros w' Hw'. exact Hw'.
  - apply deliver_preserves; [|exact Hw].
    intros w' Hw'. unfold on_keyring.
    destruct (negb _); [|exact Hw'].
    destruct (truthy_flag unlocked);
      [apply restartTokenDetection_one_timer|]; exact Hw'.
  - destruct (_network (this w)); exact Hw.
  - unfold resume_detectNewTokens.
    destruct (nth_error (inflight w) k); [|exact Hw].
    destruct (detect_resume _ _ _). exact Hw.
  - apply invoke_detectNewTokens_one_timer, Hw.
  - apply restartTokenDetection_one_timer, Hw.
  - apply set_interval_one_timer, Hw.
  - destruct network; exact Hw.
  - destruct k; exact Hw.
  - exact Hw.
Qed.

Lemma constructor_one_timer (cfg : Config) : one_timer (constructor cfg).
Proof.
  assert (H0 : one_timer (update_this
                            (with_collaborators (cfg_tokensController cfg)
                                                (cfg_preferences cfg))
                            fresh_world)) by (left; reflexivity).
  apply (set_interval_one_timer
           (match cfg_interval cfg with Some i => i | None => DEFAULT_INTERVAL end))
    in H0.
  unfold constructor.
  destruct (cfg_network cfg), (cfg_keyringMemStore cfg),
    (cfg_preferences cfg), (cfg_tokensController cfg); exact H0.
Qed.

Lemma run_one_timer (events : list Event) (w : World) :
  one_timer w -> one_timer (run events w).
Proof.
  revert w. induction events as [|e rest IH]; simpl; intros w Hw; [exact Hw|].
  apply IH, step_one_timer, Hw.
Qed.

(** The setter touches the timers and the handle, nothing else. *)
Lemma set_interval_frame (interval : Z) (w : World) :
  calls (set_interval interval w) = calls w
  /\ inflight (set_interval interval w) = inflight w
  /\ rejected (set_interval interval w) = rejected w
  /\ subscriptions (set_interval interval w) = subscriptions w
  /\ (this (set_interval interval w) = this w
      \/ exists h, this (set_interval interval w) = with_handle h (this w)).
Proof.
  unfold set_interval.
  destruct (_handle (this w)); destruct (Z.eqb interval 0); simpl;
    repeat split; eauto.
Qed.

(** C7 (as amended): the setter first cancels the timer the controller holds
    the handle of; a zero interval then arms nothing, any other interval arms
    exactly one timer of that period.  So, in every state a constructed
    controller can reach, at most one timer is armed, a timer is armed after
    the setter exactly when the interval is not zero, and a second call leaves
    the timer of the second call only.  The handle field is not cleared when
    polling is disabled: it keeps the handle of the cancelled timer. *)
Theorem interval_setter_rearms (cfg : Config) (events : list Event)
  (interval interval' : Z) :
  let w := run events (constructor cfg) in
  (List.length (timers w) <= 1)%nat
  /\ timers (set_interval interval w)
     = (if Z.eqb interval 0 then [] else [(next_handle w, interval)])
  /\ _handle (this (set_interval interval w))
     = (if Z.eqb interval 0 then _handle (this w) else Some (next_handle w))
  /\ timers (set_interval interval' (set_interval interval w))
     = (if Z.eqb interval' 0 then []
        else [(next_handle (set_interval interval w), interval')]).
Proof.
  intros w.
  assert (Hw : one_timer w) by apply run_one_timer, constructor_one_timer.
  destruct (set_interval_timers interval w Hw) as [Ht Hh].
  destruct (set_interval_timers interval' _ (set_interval_one_timer interval w Hw))
    as [Ht' _].
  repeat split; try assumption.
  destruct Hw as [-> | (h & i & -> & _)]; simpl; lia.
Qed.

(** ** Restart *)

Lemma detect_begin_inactive (c : DetectTokensController) :
  truthy_flag (isActive c) = false -> detect_begin c = (c, Returned).
Proof. intros H. unfold detect_begin. rewrite H. reflexivity. Qed.

Lemma invoke_detectNewTokens_inactive (w : World) :
  truthy_flag (isActive (this w)) = false -> invoke_detectNewTokens w = w.
Proof.
  intros H. unfold invoke_detectNewTokens.
  rewrite (detect_begin_inactive _ H). destruct w; reflexivity.
Qed.

Lemma restartTokenDetection_inactive (w : World) :
  truthy_flag (isActive (this w)) = false -> restartTokenDetection w = w.
Proof. intros H. unfold restartTokenDetection. rewrite H. reflexivity. Qed.

(** C6: [restartTokenDetection] does nothing when the detector is not active
    or no selected address is known.  Otherwise it starts a detection pass
    within the call itself, not at the next tick (the calls and the passes in
    flight are those of a call of [detectNewTokens]), and sets the interval to
    the default of three minutes: the timer held before is cancelled and one
    timer of 180000 ms is armed. *)
Theorem restartTokenDetection_restarts (cfg : Config) (events : list Event) :
  let w := run events (constructor cfg) in
  (truthy_flag (isActive (this w)) = false
   \/ truthy_ostring (selectedAddress (this w)) = false ->
   restartTokenDetection w = w)
  /\ (truthy_flag (isActive (this w)) = true ->
      truthy_ostring (selectedAddress (this w)) = true ->
      restartTokenDetection w
      = set_interval DEFAULT_INTERVAL (invoke_detectNewTokens w)
      /\ calls (restartTokenDetection w) = calls (invoke_detectNewTokens w)
      /\ inflight (restartTokenDetection w) = inflight (invoke_detectNewTokens w)
      /\ rejected (restartTokenDetection w) = rejected (invoke_detectNewTokens w)
      /\ timers (restartTokenDetection w) = [(next_handle w, 180000%Z)]
      /\ _handle (this (restartTokenDetection w)) = Some (next_handle w)).
Proof.
  intros w. split.
  - intros [H | H]; unfold restartTokenDetection; rewrite H;
      [reflexivity | rewrite andb_false_r; reflexivity].
  - intros Ha Hs.
    assert (Hr : restartTokenDetection w
                 = set_interval DEFAULT_INTERVAL (invoke_detectNewTokens w)).
    { unfold restartTokenDetection. rewrite Ha, Hs. reflexivity. }
    assert (Hw : one_timer (invoke_detectNewTokens w)).
    { apply invoke_detectNewTokens_one_timer, run_one_timer,
        constructor_one_timer. }
    destruct (set_interval_frame DEFAULT_INTERVAL (invoke_detectNewTokens w))
      as (Hc & Hi & Hj & _).
    destruct (set_interval_timers DEFAULT_INTERVAL _ Hw) as [Ht Hh].
    destruct (invoke_detectNewTokens_timers w) as (_ & Hn & _).
    rewrite Hn in Ht, Hh. rewrite Hr.
    repeat split; assumption.
Qed.

(** ** Activation *)

Lemma dormant_inactive (w : World) :
  dormant w -> isActive (this w) = None.
Proof. intros (Ho & _). unfold isActive. rewrite Ho. reflexivity. Qed.

Lemma dormant_falsy (w : World) :
  dormant w -> truthy_flag (isActive (this w)) = false.
Proof. intros H. rewrite (dormant_inactive _ H). reflexivity. Qed.

Lemma set_interval_dormant (interval : Z) (w : World) :
  dormant w -> dormant (set_interval interval w).
Proof.
  intros (Ho & Hc & Hi & Hr).
  destruct (set_interval_frame interval w) as (Hc' & Hi' & Hr' & _ & Hthis).
  unfold dormant. rewrite Hc', Hi', Hr'.
  destruct Hthis as [-> | [h ->]]; auto.
Qed.

Lemma step_dormant (e : Event) (w : World) :
  internal e -> dormant w -> dormant (step e w).
Proof.
  intros He Hw. destruct e; simpl in *.
  - case_if; [|exact Hw].
    rewrite (invoke_detectNewTokens_inactive _ (dormant_falsy _ Hw)). exact Hw.
  - apply deliver_preserves; [|exact Hw].
    intros w' Hw'. unfold on_preferences. case_if; [|exact Hw'].
    rewrite restartTokenDetection_inactive.
    + destruct Hw' as (? & ? & ? & ?). repeat split; assumption.
    + unfold isActive. simpl. destruct Hw' as (-> & _). reflexivity.
  - apply deliver_preserves; [|exact Hw].
    intros w' (? & ? & ? & ?). repeat split; assumption.
  - apply deliver_preserves; [|exact Hw].
    intros w' Hw'. unfold on_keyring. case_if; [|exact Hw'].
    assert (Hd : dormant (update_this (with_isUnlocked unlocked) w')).
    { destruct Hw' as (? & ? & ? & ?). repeat split; assumption. }
    case_if; [|exact Hd].
    rewrite (restartTokenDetection_inactive _ (dormant_falsy _ Hd)). exact Hd.
  - destruct (_network (this w)); [|exact Hw].
    destruct Hw as (? & ? & ? & ?). repeat split; assumption.
  - unfold resume_detectNewTokens.
    destruct Hw as (Ho & Hc & Hi & Hr). rewrite Hi.
    destruct k; simpl; repeat split; assumption.
  - rewrite (invoke_detectNewTokens_inactive _ (dormant_falsy _ Hw)). exact Hw.
  - rewrite (restartTokenDetection_inactive _ (dormant_falsy _ Hw)). exact Hw.
  - apply set_interval_dormant, Hw.
  - destruct network; [|exact Hw].
    destruct Hw as (? & ? & ? & ?). repeat split; assumption.
  - destruct k; [|exact Hw].
    destruct Hw as (? & ? & ? & ?). repeat split; assumption.
  - contradiction.
Qed.

Lemma constructor_dormant (cfg : Config) : dormant (constructor cfg).
Proof.
  assert (H0 : dormant (update_this
                          (with_collaborators (cfg_tokensController cfg)
                                              (cfg_preferences cfg))
                          fresh_world)) by (repeat split; reflexivity).
  apply (set_interval_dormant
           (match cfg_interval cfg with Some i => i | None => DEFAULT_INTERVAL end))
    in H0.
  destruct H0 as (? & ? & ? & ?).
  unfold constructor.
  destruct (cfg_network cfg), (cfg_keyringMemStore cfg),
    (cfg_preferences cfg), (cfg_tokensController cfg);
    repeat split; assumption.
Qed.

Lemma run_dormant (events : list Event) (w : World) :
  Forall internal events -> dormant w -> dormant (run events w).
Proof.
  intros Hev. revert w.
  induction Hev as [|e rest He _ IH]; simpl; intros w Hw; [exact Hw|].
  apply IH, step_dormant; assumption.
Qed.

(** C10: a constructed detector is inactive, and stays so whatever the
    controller's own methods, its subscriptions and its timer do: nothing but
    the host's assignment sets [isOpen].  Until then [isActive] is falsy, no
    balance call is made, no pass is in flight, and every call of
    [detectNewTokens] or [restartTokenDetection] leaves everything as it is;
    the same holds in any state in which [isOpen] or [isUnlocked] is not
    true. *)
Theorem inactive_until_host_opens (cfg : Config) (events : list Event) :
  Forall internal events ->
  let w := run events (constructor cfg) in
  (isOpen (this w) = None /\ truthy_flag (isActive (this w)) = false
   /\ calls w = [] /\ inflight w = []
   /\ invoke_detectNewTokens w = w /\ restartTokenDetection w = w)
  /\ (forall w' : World,
        isOpen (this w') <> Some true \/ isUnlocked (this w') <> Some true ->
        invoke_detectNewTokens w' = w' /\ restartTokenDetection w' = w').
Proof.
  intros Hev w. split.
  - assert (Hd : dormant w) by (apply run_dormant, constructor_dormant; exact Hev).
    pose proof (dormant_falsy _ Hd) as Hf.
    destruct Hd as (Ho & Hc & Hi & _).
    repeat split; try assumption.
    + apply invoke_detectNewTokens_inactive, Hf.
    + apply restartTokenDetection_inactive, Hf.
  - intros w' Hflags.
    assert (Hf : truthy_flag (isActive (this w')) = false).
    { unfold isActive, js_and.
      destruct (isOpen (this w')) as [[|]|]; simpl; try reflexivity.
      destruct (isUnlocked (this w')) as [[|]|]; simpl; try reflexivity.
      destruct Hflags; congruence. }
    split.
    + apply invoke_detectNewTokens_inactive, Hf.
    + apply restartTokenDetection_inactive, Hf.
Qed.

(** ** A detector without its tokens controller *)

Lemma deliver_unsubscribed (callback : World -> World) (subs : list Feed)
  (w : World) :
  ~ In TokensFeed subs -> deliver TokensFeed callback subs w = w.
Proof.
  revert w. induction subs as [|f rest IH]; simpl; intros w Hn; [reflexivity|].
  destruct f; try (apply IH; tauto). exfalso. apply Hn. left. reflexivity.
Qed.

Lemma invoke_detectNewTokens_no_registry (w : World) :
  no_registry w -> no_registry (invoke_detectNewTokens w).
Proof.
  intros (Ht & Hh & Hs & Hn). unfold invoke_detectNewTokens.
  pose proof (detect_begin_this (this w)) as Hthis.
  destruct (detect_begin (this w)) as [c [|e|o ts]]; simpl in Hthis;
    (destruct Hthis as [-> | [p ->]]; unfold no_registry; simpl;
     repeat split; try assumption; intros _; discriminate).
Qed.

Lemma set_interval_no_registry (interval : Z) (w : World) :
  no_registry w -> no_registry (set_interval interval w).
Proof.
  intros (Ht & Hh & Hs & Hn).
  destruct (set_interval_frame interval w) as (_ & _ & _ & Hs' & Hthis).
  unfold no_registry. rewrite Hs'.
  destruct Hthis as [-> | [h ->]]; simpl; auto.
Qed.

Lemma restartTokenDetection_no_registry (w : World) :
  no_registry w -> no_registry (restartTokenDetection w).
Proof.
  intros Hw. unfold restartTokenDetection. case_if; [exact Hw|].
  apply set_interval_no_registry, invoke_detectNewTokens_no_registry, Hw.
Qed.

Lemma step_no_registry (e : Event) (w : World) :
  no_registry w -> no_registry (step e w).
Proof.
  intros Hw. destruct e; simpl.
  - case_if; [apply invoke_detectNewTokens_no_registry|]; exact Hw.
  - apply deliver_preserves; [|exact Hw].
    intros w' Hw'. unfold on_preferences. case_if; [|exact Hw'].
    apply restartTokenDetection_no_registry.
    destruct Hw' as (? & ? & ? & ?). repeat split; assumption.
  - rewrite deliver_unsubscribed; [exact Hw|]. apply Hw.
  - apply deliver_preserves; [|exact Hw].
    intros w' Hw'. unfold on_keyring. case_if; [|exact Hw'].
    assert (Hd : no_registry (update_this (with_isUnlocked unlocked) w')).
    { destruct Hw' as (? & ? & ? & ?). repeat split; assumption. }
    case_if; [apply restartTokenDetection_no_registry|]; exact Hd.
  - destruct (_network (this w)) eqn:Hn; [|exact Hw].
    destruct Hw as (? & ? & ? & Hb). repeat split; try assumption.
    simpl. intros _. apply Hb. rewrite Hn. discriminate.
  - unfold resume_detectNewTokens.
    destruct (nth_error (inflight w) k); [|exact Hw].
    destruct (detect_resume _ _ _). exact Hw.
  - apply invoke_detectNewTokens_no_registry, Hw.
  - apply restartTokenDetection_no_registry, Hw.
  - apply set_interval_no_registry, Hw.
  - destruct network; [|exact Hw].
    destruct Hw as (? & ? & ? & ?). repeat split; try assumption.
    simpl. intros _. discriminate.
  - destruct k; [|exact Hw].
    destruct Hw as (? & ? & Hs & ?). repeat split; try assumption.
    simpl. rewrite in_app_iff. intros [H' | [H' | []]];
      [exact (Hs H') | discriminate].
  - destruct Hw as (? & ? & ? & ?). repeat split; assumption.
Qed.

Lemma run_no_registry (events : list Event) (w : World) :
  no_registry w -> no_registry (run events w).
Proof.
  revert w. induction events as [|e rest IH]; simpl; intros w Hw; [exact Hw|].
  apply IH, step_no_registry, Hw.
Qed.

Lemma constructor_no_registry (cfg : Config) :
  cfg_tokensController cfg = None -> no_registry (constructor cfg).
Proof.
  intros Hcfg. unfold constructor. rewrite Hcfg.
  destruct (cfg_interval cfg) as [i|]; [destruct (Z.eqb i 0) eqn:Hi|];
    destruct (cfg_network cfg), (cfg_keyringMemStore cfg),
      (cfg_preferences cfg);
    unfold no_registry, set_interval; simpl; rewrite ?Hi; simpl;
    repeat split; try reflexivity; try discriminate;
    intuition (try discriminate; try congruence).
Qed.

(** What construction leaves behind for a collaborator that is absent: no
    subscription, and [undefined] in the fields read from it. *)
Lemma constructor_absent (cfg : Config) :
  (cfg_preferences cfg = None ->
   selectedAddress (this (constructor cfg)) = None
   /\ ~ In PreferencesFeed (subscriptions (constructor cfg)))
  /\ (cfg_keyringMemStore cfg = None ->
      isUnlocked (this (constructor cfg)) = None
      /\ ~ In KeyringFeed (subscriptions (constructor cfg)))
  /\ (cfg_network cfg = None ->
      _network (this (constructor cfg)) = None
      /\ web3 (this (constructor cfg)) = None)
  /\ (cfg_tokensController cfg = None ->
      tokenAddresses (this (constructor cfg)) = None
      /\ hiddenTokens (this (constructor cfg)) = None
      /\ ~ In TokensFeed (subscriptions (constructor cfg))).
Proof.
  unfold constructor, set_interval.
  destruct (cfg_interval cfg) as [i|]; [destruct (Z.eqb i 0)|];
    destruct (cfg_network cfg), (cfg_keyringMemStore cfg),
      (cfg_preferences cfg), (cfg_tokensController cfg); simpl;
    repeat split; try reflexivity; try discriminate;
    intuition discriminate.
Qed.

(** With no list of tracked addresses, the loop throws at the first fungible
    entry of the address book. *)
Lemma collect_throws_untracked (c : DetectTokensController)
  (ks acc : list string) :
  tokenAddresses c = None ->
  (forall k, In k ks -> exists m, lookup contracts k = Some m) ->
  (exists a, In a ks /\ fungible a) ->
  collect c ks acc = Throw (TypeError "this.tokenAddresses").
Proof.
  intros Ht. revert acc.
  induction ks as [|k rest IH]; intros acc Hall (a & Hin & Hfun);
    [destruct Hin|].
  simpl. destruct (Hall k (or_introl eq_refl)) as [m Hm].
  unfold shouldDetect at 1. rewrite Hm. simpl.
  destruct (erc20 m) eqn:He; simpl.
  - rewrite Ht. reflexivity.
  - apply IH.
    + intros k' Hk'. apply Hall. right. exact Hk'.
    + exists a. split; [|exact Hfun].
      destruct Hin as [<- | Hin]; [|exact Hin].
      destruct Hfun as (m' & Hm' & He'). congruence.
Qed.

(** C8: a detector constructed without its tokens controller has no list of
    tracked or ignored tokens at all ([undefined], not the empty list), in
    every state it can reach; once it is active on mainnet and the address
    book has a fungible entry, a detection pass throws a TypeError on the
    missing list, and its promise is rejected. *)
Theorem missing_tokensController_rejects (cfg : Config) (events : list Event)
  (oracle : option string -> list string -> Reply)
  (during : DetectTokensController -> DetectTokensController) :
  cfg_tokensController cfg = None ->
  let w := run events (constructor cfg) in
  truthy_flag (isActive (this w)) = true ->
  (exists n, _network (this w) = Some n /\ chainId n = MAINNET_CHAIN_ID) ->
  (exists a, fungible a) ->
  tokenAddresses (this w) = None
  /\ hiddenTokens (this w) = None
  /\ ~ In TokensFeed (subscriptions w)
  /\ detectNewTokens (this w) oracle during
     = ([], RejectedWith (TypeError "this.tokenAddresses"))
  /\ rejected (invoke_detectNewTokens w)
     = (rejected w ++ [TypeError "this.tokenAddresses"])%list.
Proof.
  intros Hcfg w Hact (n & Hn & Hchain) (a & Hfun).
  assert (Hw : no_registry w)
    by (apply run_no_registry, constructor_no_registry, Hcfg).
  destruct Hw as (Ht & Hh & Hs & Hb).
  assert (Hbegin : exists c1,
             detect_begin (this w)
             = (c1, Rejected (TypeError "this.tokenAddresses"))).
  { unfold detect_begin. rewrite Hact, Hn. simpl.
    rewrite Hchain, String.eqb_refl. simpl.
    destruct (web3 (this w)) as [w3|] eqn:Hw3.
    - rewrite collect_throws_untracked; eauto.
      + intros k Hk. apply keys_In_lookup. exact Hk.
      + exists a. split; [|exact Hfun].
        destruct Hfun as (m & Hm & _). exact (lookup_In_keys _ _ Hm).
    - exfalso. apply Hb; [rewrite Hn; discriminate | reflexivity]. }
  destruct Hbegin as [c1 Hbegin].
  repeat split; try assumption.
  - unfold detectNewTokens. rewrite Hbegin. reflexivity.
  - unfold invoke_detectNewTokens. rewrite Hbegin. reflexivity.
Qed.

(** ** Further properties of a detection pass *)

Lemma collect_ext (c c' : DetectTokensController) (ks acc : list string) :
  (forall k, shouldDetect c k = shouldDetect c' k) ->
  collect c ks acc = collect c' ks acc.
Proof.
  intros Hext. revert acc.
  induction ks as [|k rest IH]; intros acc; simpl; [reflexivity|].
  rewrite Hext. destruct (shouldDetect c' k); simpl; [apply IH | reflexivity].
Qed.

Lemma collect_filter (c : DetectTokensController) (ks acc tokensToDetect : list string) :
  collect c ks acc = Normal tokensToDetect ->
  tokensToDetect = (acc ++ filter (candidateb c) ks)%list.
Proof.
  revert acc. induction ks as [|k rest IH]; simpl; intros acc Hc.
  - injection Hc as <-. rewrite app_nil_r. reflexivity.
  - unfold candidateb at 1.
    destruct (shouldDetect c k) as [wanted|e]; simpl in Hc; [|discriminate].
    rewrite (IH _ Hc). destruct wanted; [|reflexivity].
    rewrite <- app_assoc. reflexivity.
Qed.

Lemma detect_begin_filter (c c1 : DetectTokensController)
  (owner : option string) (tokens : list string) :
  detect_begin c = (c1, Fetching owner tokens) ->
  tokens = filter (candidateb c) (keys contracts).
Proof.
  intros Hb.
  destruct (detect_begin_Fetching _ _ _ _ Hb) as (_ & (n & _ & _ & ->) & _ & Hc).
  apply collect_filter in Hc. simpl in Hc.
  rewrite Hc. apply filter_ext. intros a. reflexivity.
Qed.

(** X1: the candidates are the keys of the address book that pass the condition,
    in the order of the address book; distinct keys give distinct
    candidates. *)
Theorem candidates_in_book_order (c c1 : DetectTokensController)
  (owner : option string) (tokens : list string) :
  detect_begin c = (c1, Fetching owner tokens) ->
  tokens = filter (candidateb c) (keys contracts)
  /\ (NoDup (keys contracts) -> NoDup tokens).
Proof.
  intros Hb. pose proof (detect_begin_filter _ _ _ _ Hb) as Heq.
  split; [exact Heq|].
  intros Hnd. rewrite Heq. apply NoDup_filter. exact Hnd.
Qed.

(** A pass keeps nothing from one run to the next: run again on the
    controller it left, its synchronous part does the same. *)
Lemma detect_begin_idempotent (c : DetectTokensController) :
  detect_begin (fst (detect_begin c)) = detect_begin c.
Proof.
  unfold detect_begin at 2 3.
  destruct (negb (truthy_flag (isActive c))) eqn:Hact; [simpl|].
  { unfold detect_begin. rewrite Hact. reflexivity. }
  destruct (_network c) as [n|] eqn:Hn.
  2:{ simpl. unfold detect_begin. rewrite Hact, Hn. reflexivity. }
  destruct (negb (String.eqb (chainId n) MAINNET_CHAIN_ID)) eqn:Hchain.
  { simpl. unfold detect_begin. rewrite Hact, Hn, Hchain. reflexivity. }
  destruct (web3 c) as [w3|] eqn:Hw3.
  2:{ simpl. unfold detect_begin. rewrite Hact, Hn, Hchain, Hw3. reflexivity. }
  assert (Hrun : detect_begin (with_web3 (Some (mkWeb3 (_provider n))) c)
                 = match collect (with_web3 (Some (mkWeb3 (_provider n))) c)
                           (keys contracts) [] with
                   | Throw e => (with_web3 (Some (mkWeb3 (_provider n))) c, Rejected e)
                   | Normal ts =>
                       (with_web3 (Some (mkWeb3 (_provider n))) c,
                        Fetching (selectedAddress c) ts)
                   end).
  { unfold detect_begin. simpl.
    change (isActive (with_web3 (Some (mkWeb3 (_provider n))) c)) with (isActive c).
    rewrite Hact, Hn, Hchain. reflexivity. }
  cbv zeta.
  destruct (collect (with_web3 (Some (mkWeb3 (_provider n))) c) (keys contracts) [])
    as [ts|e] eqn:Hc; simpl; rewrite Hrun; try rewrite Hc; reflexivity.
Qed.

(** X2: the selected address is not read before the fetch: it decides neither
    whether a pass runs nor what it asks for, only for whom.  A pass runs for
    an [undefined] address as for any other. *)
Theorem selectedAddress_only_names_the_owner (c : DetectTokensController)
  (a : option string) :
  detect_begin (with_selectedAddress a c)
  = (with_selectedAddress a (fst (detect_begin c)),
     match snd (detect_begin c) with
     | Fetching _ tokens => Fetching a tokens
     | other => other
     end).
Proof.
  unfold detect_begin.
  change (isActive (with_selectedAddress a c)) with (isActive c).
  change (_network (with_selectedAddress a c)) with (_network c).
  change (web3 (with_selectedAddress a c)) with (web3 c).
  destruct (negb (truthy_flag (isActive c))); [reflexivity|].
  destruct (_network c) as [n|]; [|reflexivity].
  destruct (negb (String.eqb (chainId n) MAINNET_CHAIN_ID)); [reflexivity|].
  destruct (web3 c); [|reflexivity].
  rewrite (collect_ext
             (with_web3 (Some (mkWeb3 (_provider n))) (with_selectedAddress a c))
             (with_web3 (Some (mkWeb3 (_provider n))) c))
    by (intros k; reflexivity).
  destruct (collect _ (keys contracts) []); reflexivity.
Qed.

(** X3: an address book without a fungible entry: the loop never reaches the
    lists of tracked and hidden tokens, so the pass goes through even when
    they are [undefined]; it asks for the balances of no token at all and
    registers nothing. *)
Theorem book_without_erc20_fetches_nothing (c : DetectTokensController)
  (n : Network) (w3 : Web3)
  (oracle : option string -> list string -> Reply)
  (during : DetectTokensController -> DetectTokensController) :
  truthy_flag (isActive c) = true ->
  _network c = Some n -> chainId n = MAINNET_CHAIN_ID ->
  web3 c = Some w3 ->
  (forall a, ~ fungible a) ->
  detect_begin c
  = (with_web3 (Some (mkWeb3 (_provider n))) c, Fetching (selectedAddress c) [])
  /\ detectNewTokens c oracle during
     = (Balances (selectedAddress c) []
        :: match oracle (selectedAddress c) [] with
           | ReplyError error => [Warn fetch_failed_message error]
           | ReplyResult _ => []
           end, Fulfilled).
Proof.
  intros Hact Hn Hchain Hw3 Hnone.
  assert (Hcollect : forall c' ks acc,
             (forall k, In k ks -> In k (keys contracts)) ->
             collect c' ks acc = Normal acc).
  { intros c' ks. induction ks as [|k rest IH]; intros acc Hks; [reflexivity|].
    simpl. destruct (keys_In_lookup k (Hks k (or_introl eq_refl))) as [m Hm].
    unfold shouldDetect. rewrite Hm. simpl.
    destruct (erc20 m) eqn:He.
    - exfalso. apply (Hnone k). exists m. auto.
    - simpl. apply IH. intros k' Hk'. apply Hks. right. exact Hk'. }
  assert (Hb : detect_begin c
               = (with_web3 (Some (mkWeb3 (_provider n))) c,
                  Fetching (selectedAddress c) [])).
  { unfold detect_begin. rewrite Hact, Hn, Hw3. simpl.
    rewrite Hchain, String.eqb_refl. simpl.
    rewrite Hcollect by auto. reflexivity. }
  split; [exact Hb|].
  unfold detectNewTokens. rewrite Hb.
  destruct (oracle (selectedAddress c) []); reflexivity.
Qed.

(** ** Further properties of the registration phase *)



Lemma registerToken_shape (c : DetectTokensController)
  (result : list (option N)) (a : string) (i : nat) (l : list Effect) :
  registerToken c result a i = Normal l ->
  l = [] \/ exists m, l = [AddToken a (symbol m) (decimals m)].
Proof.
  unfold registerToken.
  destruct (hiddenTokens c) as [hd|]; simpl; [|discriminate].
  destruct (match hd with [] => None | _ :: _ => find_ignored hd a end);
    [intros H; injection H as <-; auto|].
  destruct (hasBalance (result_at result i));
    [|intros H; injection H as <-; auto].
  destruct (tokensController c); simpl; [|discriminate].
  destruct (lookup contracts a) as [m|]; simpl; [|discriminate].
  intros H. injection H as <-. right. exists m. reflexivity.
Qed.

(** X5: within one pass no address is registered twice when the candidates are
    distinct, and a pass over an address book with distinct keys makes no call
    twice. *)
Theorem pass_makes_no_call_twice (c : DetectTokensController)
  (oracle : option string -> list string -> Reply)
  (during : DetectTokensController -> DetectTokensController) :
  NoDup (keys contracts) ->
  NoDup (fst (detectNewTokens c oracle during)).
Proof.
  intros Hkeys.
  assert (Hreg : forall c' result ts i,
             NoDup ts -> NoDup (fst (registerAll c' result ts i))).
  { intros c' result ts. induction ts as [|a rest IH]; intros i Hnd; simpl.
    - constructor.
    - inversion Hnd as [|? ? Hnotin Hrest]; subst.
      specialize (IH (S i) Hrest).
      pose proof (registerAll_In c' result rest (S i)) as Hin.
      destruct (registerAll c' result rest (S i)) as [later settled].
      simpl in IH, Hin.
      destruct (registerToken c' result a i) as [now|e] eqn:Hnow; simpl in *;
        [|exact IH].
      destruct (registerToken_shape _ _ _ _ _ Hnow) as [-> | [m ->]];
        [exact IH|].
      simpl. constructor; [|exact IH].
      intros Hl. apply Hin in Hl. destruct Hl as (k & a' & Hk & Ha').
      apply registerToken_effects in Ha'. destruct Ha' as (m' & Heq & _).
      injection Heq as -> _ _. apply Hnotin. eapply nth_error_In. exact Hk. }
  unfold detectNewTokens.
  destruct (detect_begin c) as [c1 [|e|o ts]] eqn:Hb; simpl; try constructor.
  assert (Hnd : NoDup ts).
  { rewrite (detect_begin_filter _ _ _ _ Hb). apply NoDup_filter, Hkeys. }
  destruct (oracle o ts) as [error|result]; simpl.
  - constructor; [intros [H | []]; discriminate|].
    constructor; [intros [] | constructor].
  - specialize (Hreg (during c1) result ts 0%nat Hnd).
    pose proof (registerAll_In (during c1) result ts 0) as Hin.
    destruct (registerAll (during c1) result ts 0) as [registered settled].
    simpl in *. constructor; [|exact Hreg].
    intros Hl. apply Hin in Hl. destruct Hl as (k & a' & _ & Ha').
    apply registerToken_effects in Ha'. destruct Ha' as (m' & Heq & _).
    discriminate.
Qed.

(** ** What each method leaves as it is *)

Lemma same_but_transport_refl (c : DetectTokensController) :
  same_but_transport c c.
Proof. repeat split. Qed.

Lemma same_but_transport_trans (c1 c2 c3 : DetectTokensController) :
  same_but_transport c1 c2 -> same_but_transport c2 c3 ->
  same_but_transport c1 c3.
Proof.
  unfold same_but_transport.
  intros (? & ? & ? & ? & ? & ? & ? & ? & ?) (? & ? & ? & ? & ? & ? & ? & ? & ?).
  repeat split; congruence.
Qed.

(** A call of [detectNewTokens]: either nothing is asked for, or one batched
    call goes out for the address selected now and the pass is in flight. *)
Lemma invoke_detectNewTokens_cases (w : World) :
  same_but_transport (this w) (this (invoke_detectNewTokens w))
  /\ ((calls (invoke_detectNewTokens w) = calls w
       /\ inflight (invoke_detectNewTokens w) = inflight w
       /\ (rejected (invoke_detectNewTokens w) = rejected w
           \/ exists e, snd (detect_begin (this w)) = Rejected e
                        /\ rejected (invoke_detectNewTokens w)
                           = (rejected w ++ [e])%list))
      \/ (exists tokens,
             detect_begin (this w)
             = (this (invoke_detectNewTokens w),
                Fetching (selectedAddress (this w)) tokens)
             /\ calls (invoke_detectNewTokens w)
                = (calls w ++ [Balances (selectedAddress (this w)) tokens])%list
             /\ inflight (invoke_detectNewTokens w)
                = (inflight w ++ [tokens])%list
             /\ rejected (invoke_detectNewTokens w) = rejected w)).
Proof.
  unfold invoke_detectNewTokens.
  pose proof (detect_begin_this (this w)) as Hthis.
  destruct (detect_begin (this w)) as [c [|e|o ts]] eqn:Hb; simpl in *.
  - split; [destruct Hthis as [-> | [p ->]]; repeat split|].
    left. auto.
  - split; [destruct Hthis as [-> | [p ->]]; repeat split|].
    left. repeat split. right. eauto.
  - split; [destruct Hthis as [-> | [p ->]]; repeat split|].
    right. exists ts.
    destruct (detect_begin_Fetching _ _ _ _ Hb) as (_ & _ & -> & _).
    repeat split.
Qed.

Lemma set_interval_same (interval : Z) (w : World) :
  same_but_transport (this w) (this (set_interval interval w)).
Proof.
  destruct (set_interval_frame interval w) as (_ & _ & _ & _ & [-> | [h ->]]);
    repeat split.
Qed.

Lemma restartTokenDetection_same (w : World) :
  same_but_transport (this w) (this (restartTokenDetection w)).
Proof.
  unfold restartTokenDetection. case_if; [apply same_but_transport_refl|].
  eapply same_but_transport_trans;
    [apply invoke_detectNewTokens_cases | apply set_interval_same].
Qed.

(** A restart adds to the calls what a call of [detectNewTokens] adds. *)
Lemma restartTokenDetection_calls (w : World) :
  restartTokenDetection w = w
  \/ (calls (restartTokenDetection w) = calls (invoke_detectNewTokens w)
      /\ inflight (restartTokenDetection w) = inflight (invoke_detectNewTokens w)
      /\ rejected (restartTokenDetection w) = rejected (invoke_detectNewTokens w)
      /\ subscriptions (restartTokenDetection w) = subscriptions w).
Proof.
  unfold restartTokenDetection. case_if; [left; reflexivity|]. right.
  destruct (set_interval_frame DEFAULT_INTERVAL (invoke_detectNewTokens w))
    as (Hc & Hi & Hr & Hs & _).
  destruct (invoke_detectNewTokens_timers w) as (_ & _ & _ & Hs').
  repeat split; congruence.
Qed.

Lemma flag_eqb_refl (f : flag) : flag_eqb f f = true.
Proof. destruct f as [[|]|]; reflexivity. Qed.

Lemma ostring_eqb_eq (a b : option string) : ostring_eqb a b = true <-> a = b.
Proof.
  destruct a as [x|], b as [y|]; simpl; split; try congruence.
  - intros H. apply String.eqb_eq in H. congruence.
  - intros H. injection H as ->. apply String.eqb_refl.
Qed.

(** ** The subscriptions *)

(** A second notification of the same unlock state does nothing. *)
Lemma on_keyring_idempotent (unlocked : flag) (w : World) :
  on_keyring unlocked (on_keyring unlocked w) = on_keyring unlocked w.
Proof.
  assert (Hdone : forall w', isUnlocked (this w') = unlocked ->
                             on_keyring unlocked w' = w').
  { intros w' Hw'. unfold on_keyring. rewrite Hw', flag_eqb_refl. reflexivity. }
  destruct (flag_eqb (isUnlocked (this w)) unlocked) eqn:Heq.
  - assert (E : on_keyring unlocked w = w)
      by (unfold on_keyring; rewrite Heq; reflexivity).
    rewrite E. exact E.
  - assert (E : on_keyring unlocked w
                = if truthy_flag unlocked
                  then restartTokenDetection
                         (update_this (with_isUnlocked unlocked) w)
                  else update_this (with_isUnlocked unlocked) w)
      by (unfold on_keyring; rewrite Heq; reflexivity).
    rewrite E. destruct (truthy_flag unlocked); apply Hdone; [|reflexivity].
    destruct (restartTokenDetection_same (update_this (with_isUnlocked unlocked) w))
      as (_ & _ & _ & _ & _ & _ & _ & _ & ->).
    reflexivity.
Qed.

Lemma on_preferences_idempotent (selected : option string) (w : World) :
  on_preferences selected (on_preferences selected w) = on_preferences selected w.
Proof.
  assert (Hdone : forall w', selectedAddress (this w') = selected ->
                             on_preferences selected w' = w').
  { intros w' Hw'. unfold on_preferences.
    rewrite (proj2 (ostring_eqb_eq _ _) Hw'). reflexivity. }
  destruct (ostring_eqb (selectedAddress (this w)) selected) eqn:Heq.
  - assert (E : on_preferences selected w = w)
      by (unfold on_preferences; rewrite Heq; reflexivity).
    rewrite E. exact E.
  - assert (E : on_preferences selected w
                = restartTokenDetection
                    (update_this (with_selectedAddress selected) w))
      by (unfold on_preferences; rewrite Heq; reflexivity).
    rewrite E. apply Hdone.
    destruct (restartTokenDetection_same
                (update_this (with_selectedAddress selected) w))
      as (_ & _ & _ & _ & -> & _).
    reflexivity.
Qed.

Lemma deliver_settled (f : Feed) (callback : World -> World)
  (subs : list Feed) (w : World) :
  (forall w', callback (callback w') = callback w') ->
  deliver f callback subs (callback w) = callback w.
Proof.
  intros Hidem. induction subs as [|f' rest IH]; simpl; [reflexivity|].
  destruct f, f'; rewrite ?Hidem; exact IH.
Qed.

Lemma deliver_once (f : Feed) (callback : World -> World)
  (subs : list Feed) (w : World) :
  (forall w', callback (callback w') = callback w') ->
  In f subs ->
  deliver f callback subs w = callback w.
Proof.
  intros Hidem. revert w.
  induction subs as [|f' rest IH]; simpl; intros w Hin; [destruct Hin|].
  destruct f, f'; try (apply deliver_settled; exact Hidem);
    (apply IH; destruct Hin as [H | H]; [discriminate | exact H]).
Qed.

Lemma deliver_none (f : Feed) (callback : World -> World)
  (subs : list Feed) (w : World) :
  ~ In f subs -> deliver f callback subs w = w.
Proof.
  revert w. induction subs as [|f' rest IH]; simpl; intros w Hn; [reflexivity|].
  destruct f, f'; try (exfalso; apply Hn; left; reflexivity);
    (apply IH; intros H; apply Hn; right; exact H).
Qed.

(** X6: however often the controller has subscribed to a feed (assigning
    [keyringMemStore] again subscribes again), a notification of the keyring
    or of the preferences acts as one call of the callback; without a
    subscription it does nothing. *)
Theorem notification_acts_once (w : World)
  (unlocked : flag) (selected : option string) :
  (In KeyringFeed (subscriptions w) ->
   step (KeyringChanged unlocked) w = on_keyring unlocked w)
  /\ (In PreferencesFeed (subscriptions w) ->
      step (PreferencesChanged selected) w = on_preferences selected w)
  /\ (~ In KeyringFeed (subscriptions w) ->
      step (KeyringChanged unlocked) w = w)
  /\ (~ In PreferencesFeed (subscriptions w) ->
      step (PreferencesChanged selected) w = w).
Proof.
  simpl. repeat split; intros H.
  - apply deliver_once; [apply on_keyring_idempotent | exact H].
  - apply deliver_once; [apply on_preferences_idempotent | exact H].
  - apply deliver_none, H.
  - apply deliver_none, H.
Qed.

(** X7: the keyring callback: a notification that repeats the state it stored
    does nothing; a lock (or any falsy state) is stored and nothing else
    happens, the timer stays armed and no call is made; an unlock is stored
    and followed by a restart. *)
Theorem keyring_callback (unlocked : flag) (w : World) :
  (isUnlocked (this w) = unlocked -> on_keyring unlocked w = w)
  /\ (isUnlocked (this w) <> unlocked -> truthy_flag unlocked = false ->
      on_keyring unlocked w = update_this (with_isUnlocked unlocked) w)
  /\ (isUnlocked (this w) <> unlocked -> truthy_flag unlocked = true ->
      on_keyring unlocked w
      = restartTokenDetection (update_this (with_isUnlocked unlocked) w))
  /\ isUnlocked (this (on_keyring unlocked w)) = unlocked
  /\ on_keyring unlocked (on_keyring unlocked w) = on_keyring unlocked w.
Proof.
  assert (Hneq : isUnlocked (this w) <> unlocked ->
                 flag_eqb (isUnlocked (this w)) unlocked = false).
  { destruct (isUnlocked (this w)) as [[|]|], unlocked as [[|]|];
      simpl; congruence. }
  split; [|split; [|split; [|split]]].
  - intros <-. unfold on_keyring. rewrite flag_eqb_refl. reflexivity.
  - intros Hd Hf. unfold on_keyring. rewrite (Hneq Hd), Hf. reflexivity.
  - intros Hd Ht. unfold on_keyring. rewrite (Hneq Hd), Ht. reflexivity.
  - unfold on_keyring.
    destruct (flag_eqb (isUnlocked (this w)) unlocked) eqn:Heq; simpl.
    + destruct (isUnlocked (this w)) as [[|]|], unlocked as [[|]|];
        simpl in Heq; congruence.
    + case_if; [|reflexivity].
      destruct (restartTokenDetection_same
                  (update_this (with_isUnlocked unlocked) w))
        as (_ & _ & _ & _ & _ & _ & _ & _ & ->).
      reflexivity.
  - apply on_keyring_idempotent.
Qed.

(** X8: the preferences callback stores the selected address it is told, and
    every batched call it causes is made for that address: after an account
    switch no balance is fetched for the account left. *)
Theorem account_switch_fetches_for_new_account (selected : option string)
  (w : World) :
  selectedAddress (this (on_preferences selected w)) = selected
  /\ (forall owner tokens,
         In (Balances owner tokens) (calls (on_preferences selected w)) ->
         In (Balances owner tokens) (calls w) \/ owner = selected)
  /\ (selectedAddress (this w) = selected -> on_preferences selected w = w).
Proof.
  unfold on_preferences.
  destruct (ostring_eqb (selectedAddress (this w)) selected) eqn:Heq; simpl.
  - apply ostring_eqb_eq in Heq. repeat split; auto.
  - set (w1 := update_this (with_selectedAddress selected) w).
    split; [|split].
    + destruct (restartTokenDetection_same w1) as (_ & _ & _ & _ & -> & _).
      reflexivity.
    + intros owner tokens Hin.
      destruct (restartTokenDetection_calls w1) as [E | (Hc & _)];
        [rewrite E in Hin; left; exact Hin|].
      rewrite Hc in Hin.
      destruct (invoke_detectNewTokens_cases w1)
        as (_ & [(Hsame & _) | (ts & _ & Hnew & _)]).
      * rewrite Hsame in Hin. left. exact Hin.
      * rewrite Hnew in Hin. apply in_app_iff in Hin.
        destruct Hin as [Hin | [Hin | []]]; [left; exact Hin|].
        injection Hin as <- _. right. reflexivity.
    + intros Hsel. apply ostring_eqb_eq in Hsel. congruence.
Qed.


(** X10: the reply to a pass touches neither the controller nor the timer.  After
    a failed fetch the world differs by one warning and one pass less in
    flight: the timer is still armed and its next tick starts a pass. *)
Theorem failed_fetch_keeps_polling (k : nat) (error : string)
  (tokens : list string) (w : World) :
  nth_error (inflight w) k = Some tokens ->
  this (resume_detectNewTokens k (ReplyError error) w) = this w
  /\ timers (resume_detectNewTokens k (ReplyError error) w) = timers w
  /\ calls (resume_detectNewTokens k (ReplyError error) w)
     = (calls w ++ [Warn fetch_failed_message error])%list
  /\ rejected (resume_detectNewTokens k (ReplyError error) w) = rejected w
  /\ S (List.length (inflight (resume_detectNewTokens k (ReplyError error) w)))
     = List.length (inflight w)
  /\ (forall h, In h (map fst (timers w)) ->
        step (Tick h) (resume_detectNewTokens k (ReplyError error) w)
        = invoke_detectNewTokens (resume_detectNewTokens k (ReplyError error) w)).
Proof.
  intros Hk. unfold resume_detectNewTokens. rewrite Hk. simpl.
  repeat split.
  - assert (Hlt : (k < List.length (inflight w))%nat)
      by (apply nth_error_Some; congruence).
    change (match inflight w with [] => [] | _ :: l => skipn k l end)
      with (skipn (S k) (inflight w)).
    rewrite length_app, length_firstn, length_skipn. lia.
  - intros h Hh.
    assert (Harmed : existsb (fun t => Pos.eqb (fst t) h) (timers w) = true).
    { apply existsb_exists. apply in_map_iff in Hh.
      destruct Hh as (t & <- & Ht). exists t. split; [exact Ht|].
      apply Pos.eqb_refl. }
    rewrite Harmed. reflexivity.
Qed.

Lemma invoke_detectNewTokens_Fetching (w : World) (c1 : DetectTokensController)
  (owner : option string) (tokens : list string) :
  detect_begin (this w) = (c1, Fetching owner tokens) ->
  invoke_detectNewTokens w
  = mkWorld c1 (timers w) (next_handle w)
      (calls w ++ [Balances owner tokens]) (inflight w ++ [tokens])
      (rejected w) (subscriptions w).
Proof. intros Hb. unfold invoke_detectNewTokens. rewrite Hb. reflexivity. Qed.

Lemma remove_nth_middle (before : list (list string)) (x : list string)
  (after : list (list string)) :
  (firstn (List.length before) (before ++ x :: after)
   ++ skipn (S (List.length before)) (before ++ x :: after))%list
  = (before ++ after)%list.
Proof.
  induction before as [|y rest IH]; simpl; [reflexivity|].
  f_equal. exact IH.
Qed.

Lemma resume_last (k : nat) (reply : Reply) (w : World)
  (before : list (list string)) (tokens : list string)
  (after : list (list string)) :
  inflight w = (before ++ tokens :: after)%list ->
  k = List.length before ->
  resume_detectNewTokens k reply w
  = mkWorld (this w) (timers w) (next_handle w)
      (calls w ++ fst (detect_resume (this w) tokens reply))
      (before ++ after)
      (match snd (detect_resume (this w) tokens reply) with
       | Fulfilled => rejected w
       | RejectedWith e => (rejected w ++ [e])%list
       end)
      (subscriptions w).
Proof.
  intros Hin ->. unfold resume_detectNewTokens. rewrite Hin.
  rewrite nth_error_app2 by lia. rewrite Nat.sub_diag. cbn [nth_error].
  rewrite remove_nth_middle.
  destruct (detect_resume (this w) tokens reply) as [effects settled].
  reflexivity.
Qed.

(** X11: nothing keeps two passes apart.  A second call of [detectNewTokens]
    before the reply to the first asks for the same balances again, and when
    both replies arrive every registration of the first pass is made a second
    time. *)
Theorem passes_overlap (w : World) (c1 : DetectTokensController)
  (owner : option string) (tokens : list string) (reply : Reply) :
  detect_begin (this w) = (c1, Fetching owner tokens) ->
  calls (invoke_detectNewTokens (invoke_detectNewTokens w))
  = (calls w ++ [Balances owner tokens; Balances owner tokens])%list
  /\ inflight (invoke_detectNewTokens (invoke_detectNewTokens w))
     = (inflight w ++ [tokens; tokens])%list
  /\ calls (resume_detectNewTokens (List.length (inflight w)) reply
              (resume_detectNewTokens (List.length (inflight w)) reply
                 (invoke_detectNewTokens (invoke_detectNewTokens w))))
     = (calls w ++ [Balances owner tokens; Balances owner tokens]
          ++ fst (detect_resume c1 tokens reply)
          ++ fst (detect_resume c1 tokens reply))%list.
Proof.
  intros Hb.
  assert (Hb1 : detect_begin c1 = (c1, Fetching owner tokens)).
  { pose proof (detect_begin_idempotent (this w)) as Hi.
    rewrite Hb in Hi. exact Hi. }
  rewrite (invoke_detectNewTokens_Fetching w _ _ _ Hb).
  rewrite (invoke_detectNewTokens_Fetching _ c1 owner tokens) by exact Hb1.
  simpl. rewrite <- !app_assoc. simpl.
  split; [reflexivity|]. split; [reflexivity|].
  match goal with
  | |- calls (resume_detectNewTokens ?k reply (resume_detectNewTokens ?k reply ?w2)) = _ =>
      rewrite (resume_last k reply w2 (inflight w) tokens [tokens] eq_refl eq_refl)
  end.
  match goal with
  | |- calls (resume_detectNewTokens ?k reply ?w3) = _ =>
      rewrite (resume_last k reply w3 (inflight w) tokens [] eq_refl eq_refl)
  end.
  simpl. rewrite <- !app_assoc. reflexivity.
Qed.

(** X12: what construction sets up: one timer of the configured interval (three
    minutes by default, none for the interval zero), the snapshots of the
    selected address and of the token lists, the transport of the network
    given.  It starts no pass, and it does not read the unlock state: the
    controller learns it from the next notification of the keyring. *)
Theorem constructor_snapshot (cfg : Config) :
  timers (constructor cfg)
  = match cfg_interval cfg with
    | Some i => if Z.eqb i 0 then [] else [(1%positive, i)]
    | None => [(1%positive, 180000%Z)]
    end
  /\ selectedAddress (this (constructor cfg))
     = match cfg_preferences cfg with
       | Some p => prefs_selectedAddress p
       | None => None
       end
  /\ tokenAddresses (this (constructor cfg))
     = option_map (fun tc => map address (state_tokens tc))
         (cfg_tokensController cfg)
  /\ hiddenTokens (this (constructor cfg))
     = option_map state_ignoredTokens (cfg_tokensController cfg)
  /\ web3 (this (constructor cfg))
     = option_map (fun n => mkWeb3 (_provider n)) (cfg_network cfg)
  /\ isUnlocked (this (constructor cfg)) = None
  /\ calls (constructor cfg) = [].
Proof.
  unfold constructor, set_interval.
  destruct (cfg_interval cfg) as [i|]; [destruct (Z.eqb i 0)|];
    destruct (cfg_network cfg), (cfg_keyringMemStore cfg),
      (cfg_preferences cfg), (cfg_tokensController cfg); simpl;
    repeat split.
Qed.

(** ** Off mainnet *)

Lemma invoke_detectNewTokens_off_mainnet (w : World) :
  off_mainnet w -> invoke_detectNewTokens w = w.
Proof.
  intros (n & Hn & Hchain).
  assert (Hb : detect_begin (this w) = (this w, Returned)).
  { unfold detect_begin. case_if; [reflexivity|]. rewrite Hn.
    destruct (String.eqb (chainId n) MAINNET_CHAIN_ID) eqn:Heq; [|reflexivity].
    apply String.eqb_eq in Heq. contradiction. }
  unfold invoke_detectNewTokens. rewrite Hb. destruct w; reflexivity.
Qed.

Lemma off_mainnet_same (w w' : World) :
  same_but_transport (this w) (this w') -> off_mainnet w -> off_mainnet w'.
Proof.
  intros (_ & _ & Hn & _) (n & Hw & Hchain). exists n. split; congruence.
Qed.

Lemma restartTokenDetection_off_mainnet (w : World) :
  off_mainnet w ->
  off_mainnet (restartTokenDetection w)
  /\ calls (restartTokenDetection w) = calls w
  /\ inflight (restartTokenDetection w) = inflight w
  /\ rejected (restartTokenDetection w) = rejected w
  /\ subscriptions (restartTokenDetection w) = subscriptions w.
Proof.
  intros Hw. split.
  - exact (off_mainnet_same _ _ (restartTokenDetection_same w) Hw).
  - unfold restartTokenDetection. case_if; [repeat split|].
    rewrite (invoke_detectNewTokens_off_mainnet _ Hw).
    destruct (set_interval_frame DEFAULT_INTERVAL w) as (? & ? & ? & ? & _).
    repeat split; assumption.
Qed.

(** X13: while the network the controller is bound to is not mainnet, nothing the
    timer, the subscriptions or the host's calls do makes a call to a
    collaborator or starts a pass; a restart only re-arms the timer. *)
Theorem off_mainnet_is_silent (events : list Event) (w : World) :
  off_mainnet w ->
  Forall keeps_network events ->
  off_mainnet (run events w)
  /\ calls (run events w) = calls w
  /\ inflight (run events w) = inflight w
  /\ rejected (run events w) = rejected w.
Proof.
  intros Hw Hev. revert w Hw.
  induction Hev as [|e rest He _ IH]; intros w Hw; [simpl; auto|].
  assert (Hstep : off_mainnet (step e w)
                  /\ calls (step e w) = calls w
                  /\ inflight (step e w) = inflight w
                  /\ rejected (step e w) = rejected w).
  { assert (Hdeliver : forall f callback subs,
               (forall w', off_mainnet w' ->
                           off_mainnet (callback w')
                           /\ calls (callback w') = calls w'
                           /\ inflight (callback w') = inflight w'
                           /\ rejected (callback w') = rejected w') ->
               off_mainnet (deliver f callback subs w)
               /\ calls (deliver f callback subs w) = calls w
               /\ inflight (deliver f callback subs w) = inflight w
               /\ rejected (deliver f callback subs w) = rejected w).
    { intros f callback subs Hcb.
      apply (deliver_preserves
               (fun w' => off_mainnet w' /\ calls w' = calls w
                          /\ inflight w' = inflight w
                          /\ rejected w' = rejected w)); [|auto].
      intros w' (Ho & Hc & Hi & Hr).
      destruct (Hcb w' Ho) as (? & ? & ? & ?). repeat split; congruence. }
    destruct e; simpl in He |- *; try contradiction.
    - case_if; [rewrite (invoke_detectNewTokens_off_mainnet _ Hw)|]; auto.
    - apply Hdeliver. intros w' Hw'. unfold on_preferences.
      case_if; [|auto].
      destruct (restartTokenDetection_off_mainnet
                  (update_this (with_selectedAddress selected) w'))
        as (? & ? & ? & ? & _); [exact Hw'|]. auto.
    - apply Hdeliver. intros w' Hw'. auto.
    - apply Hdeliver. intros w' Hw'. unfold on_keyring.
      case_if; [|auto]. case_if; [|auto].
      destruct (restartTokenDetection_off_mainnet
                  (update_this (with_isUnlocked unlocked) w'))
        as (? & ? & ? & ? & _); [exact Hw'|]. auto.
    - rewrite (invoke_detectNewTokens_off_mainnet _ Hw). auto.
    - destruct (restartTokenDetection_off_mainnet w Hw) as (? & ? & ? & ? & _).
      auto.
    - destruct (set_interval_frame interval w) as (? & ? & ? & _).
      split; [|auto].
      exact (off_mainnet_same _ _ (set_interval_same interval w) Hw).
    - destruct k; auto.
    - auto. }
  destruct Hstep as (Ho & Hc & Hi & Hr).
  destruct (IH (step e w) Ho) as (? & ? & ? & ?).
  simpl. repeat split; congruence.
Qed.

(** ** Every registration is accounted for *)

Lemma In_remove_nth (k : nat) (l : list (list string)) (x : list string) :
  In x (firstn k l ++ skipn (S k) l)%list -> In x l.
Proof.
  revert l. induction k as [|k IH]; intros [|y l]; simpl; auto.
  intros [H | H]; auto.
Qed.

Lemma accounted_same (w w' : World) :
  calls w' = calls w -> inflight w' = inflight w ->
  accounted w -> accounted w'.
Proof. unfold accounted. intros -> ->. auto. Qed.

Lemma accounted_fetch (w w' : World) (owner : option string) (ts : list string) :
  calls w' = (calls w ++ [Balances owner ts])%list ->
  inflight w' = (inflight w ++ [ts])%list ->
  (forall a, In a ts -> fungible a) ->
  accounted w -> accounted w'.
Proof.
  unfold accounted. intros -> -> Hts (Hfl & Hfun & Hreg).
  split; [|split].
  - intros l Hl. apply in_app_iff in Hl. destruct Hl as [Hl | [<- | []]].
    + destruct (Hfl l Hl) as [o Ho]. exists o. apply in_app_iff. auto.
    + exists owner. apply in_app_iff. right. left. reflexivity.
  - intros o l a Hin Ha. apply in_app_iff in Hin.
    destruct Hin as [Hin | [Hin | []]]; [eauto|].
    injection Hin as <- <-. auto.
  - intros a s d Hin. apply in_app_iff in Hin.
    destruct Hin as [Hin | [Hin | []]]; [|discriminate].
    destruct (Hreg a s d Hin) as (Hb & o & l & Ho & Hl).
    split; [exact Hb|]. exists o, l. split; [|exact Hl].
    apply in_app_iff. auto.
Qed.

Lemma invoke_detectNewTokens_accounted (w : World) :
  accounted w -> accounted (invoke_detectNewTokens w).
Proof.
  intros Hw.
  destruct (invoke_detectNewTokens_cases w)
    as (_ & [(Hc & Hi & _) | (ts & Hb & Hc & Hi & _)]).
  - exact (accounted_same _ _ Hc Hi Hw).
  - apply (accounted_fetch w _ _ ts Hc Hi); [|exact Hw].
    intros a Ha. apply (candidate_iff _ _ _ _ Hb) in Ha.
    destruct Ha as [_ Hs]. apply shouldDetect_true in Hs.
    destruct Hs as (m & _ & _ & Hm & He & _). exists m. auto.
Qed.

Lemma set_interval_accounted (interval : Z) (w : World) :
  accounted w -> accounted (set_interval interval w).
Proof.
  destruct (set_interval_frame interval w) as (Hc & Hi & _).
  exact (accounted_same _ _ Hc Hi).
Qed.

Lemma restartTokenDetection_accounted (w : World) :
  accounted w -> accounted (restartTokenDetection w).
Proof.
  intros Hw. unfold restartTokenDetection. case_if; [exact Hw|].
  apply set_interval_accounted, invoke_detectNewTokens_accounted, Hw.
Qed.

Lemma resume_detectNewTokens_accounted (k : nat) (reply : Reply) (w : World) :
  accounted w -> accounted (resume_detectNewTokens k reply w).
Proof.
  intros Hw. unfold resume_detectNewTokens.
  destruct (nth_error (inflight w) k) as [ts|] eqn:Hk; [|exact Hw].
  assert (Heff : forall a s d,
             In (AddToken a s d) (fst (detect_resume (this w) ts reply)) ->
             In a ts /\ exists m, lookup contracts a = Some m
                                  /\ s = symbol m /\ d = decimals m).
  { intros a s d Hin. destruct reply as [error|result]; simpl in Hin.
    - destruct Hin as [Hin | []]. discriminate.
    - apply registerAll_In in Hin. destruct Hin as (i & a' & Hi & Hin).
      apply registerToken_effects in Hin.
      destruct Hin as (m & Heq & Hm & _). injection Heq as -> -> ->.
      split; [eapply nth_error_In; exact Hi | eauto]. }
  assert (Hnofetch : forall o l,
             ~ In (Balances o l) (fst (detect_resume (this w) ts reply)))
    by (intros o l; apply detect_resume_no_Balances).
  destruct (detect_resume (this w) ts reply) as [effects settled].
  simpl in Heff, Hnofetch.
  destruct Hw as (Hfl & Hfun & Hreg).
  unfold accounted. simpl. split; [|split].
  - intros l Hl. apply In_remove_nth in Hl.
    destruct (Hfl l Hl) as [o Ho]. exists o. apply in_app_iff. auto.
  - intros o l a Hin Ha. apply in_app_iff in Hin.
    destruct Hin as [Hin | Hin]; [eauto|].
    exfalso. exact (Hnofetch o l Hin).
  - intros a s d Hin. apply in_app_iff in Hin. destruct Hin as [Hin | Hin].
    + destruct (Hreg a s d Hin) as (Hb & o & l & Ho & Hl).
      split; [exact Hb|]. exists o, l. split; [|exact Hl].
      apply in_app_iff. auto.
    + destruct (Heff a s d Hin) as (Ha & m & Hm & -> & ->).
      destruct (Hfl ts (nth_error_In _ _ Hk)) as [o Ho].
      destruct (Hfun o ts a Ho Ha) as (m' & Hm' & He).
      rewrite Hm in Hm'. injection Hm' as <-.
      split; [exists m; auto|].
      exists o, ts. split; [|exact Ha]. apply in_app_iff. auto.
Qed.

Lemma step_accounted (e : Event) (w : World) :
  accounted w -> accounted (step e w).
Proof.
  intros Hw. destruct e; simpl.
  - case_if; [apply invoke_detectNewTokens_accounted|]; exact Hw.
  - apply deliver_preserves; [|exact Hw].
    intros w' Hw'. unfold on_preferences. case_if; [|exact Hw'].
    apply restartTokenDetection_accounted. exact Hw'.
  - apply deliver_preserves; [|exact Hw]. intros w' Hw'. exact Hw'.
  - apply deliver_preserves; [|exact Hw].
    intros w' Hw'. unfold on_keyring. case_if; [|exact Hw'].
    case_if; [apply restartTokenDetection_accounted|]; exact Hw'.
  - destruct (_network (this w)); exact Hw.
  - apply resume_detectNewTokens_accounted, Hw.
  - apply invoke_detectNewTokens_accounted, Hw.
  - apply restartTokenDetection_accounted, Hw.
  - apply set_interval_accounted, Hw.
  - destruct network; exact Hw.
  - destruct k; exact Hw.
  - exact Hw.
Qed.

(** X14: whatever happens to a constructed controller, in whatever order: every
    [addToken] it has called was for a fungible entry of the address book,
    with the symbol and the decimals of that entry, and for an address it had
    asked the balance of in a batched call. *)
Theorem registrations_are_accounted (cfg : Config) (events : list Event)
  (a s : string) (d : Z) :
  In (AddToken a s d) (calls (run events (constructor cfg))) ->
  from_book a s d
  /\ exists owner tokens,
       In (Balances owner tokens) (calls (run events (constructor cfg)))
       /\ In a tokens.
Proof.
  assert (Hrun : forall evs w, accounted w -> accounted (run evs w)).
  { induction evs as [|e rest IH]; simpl; intros w Hw; [exact Hw|].
    apply IH, step_accounted, Hw. }
  assert (H0 : accounted (constructor cfg)).
  { destruct (constructor_dormant cfg) as (_ & Hc & Hi & _).
    unfold accounted. rewrite Hc, Hi. repeat split; intros; contradiction. }
  intros Hin. exact (proj2 (proj2 (Hrun events _ H0)) a s d Hin).
Qed.

(** ** A controller with all its collaborators never throws *)

Lemma shouldDetect_total (c : DetectTokensController) (k : string) :
  tokenAddresses c <> None -> hiddenTokens c <> None ->
  In k (keys contracts) ->
  exists wanted, shouldDetect c k = Normal wanted.
Proof.
  intros Ht Hh Hk. unfold shouldDetect.
  destruct (keys_In_lookup k Hk) as [m ->]. simpl.
  destruct (erc20 m); simpl; [|eauto].
  destruct (tokenAddresses c) as [tr|]; [simpl|congruence].
  destruct (truthy_ostring (find_tracked tr k)); [eauto|].
  destruct (hiddenTokens c) as [hd|]; [simpl|congruence].
  destruct (find_hidden hd k); eauto.
Qed.

Lemma collect_total (c : DetectTokensController) (ks acc : list string) :
  tokenAddresses c <> None -> hiddenTokens c <> None ->
  (forall k, In k ks -> In k (keys contracts)) ->
  exists tokensToDetect, collect c ks acc = Normal tokensToDetect.
Proof.
  intros Ht Hh. revert acc.
  induction ks as [|k rest IH]; intros acc Hks; simpl; [eauto|].
  destruct (shouldDetect_total c k Ht Hh (Hks k (or_introl eq_refl))) as [b ->].
  simpl. apply IH. intros k' Hk'. apply Hks. right. exact Hk'.
Qed.

Lemma registerAll_fulfilled (c : DetectTokensController)
  (result : list (option N)) (ts : list string) (i : nat) :
  hiddenTokens c <> None -> tokensController c <> None ->
  (forall a, In a ts -> lookup contracts a <> None) ->
  snd (registerAll c result ts i) = Fulfilled.
Proof.
  intros Hh Ht. revert i.
  induction ts as [|a rest IH]; intros i Hts; simpl; [reflexivity|].
  specialize (IH (S i) (fun a' Ha' => Hts a' (or_intror Ha'))).
  destruct (registerAll c result rest (S i)) as [later settled]. simpl in IH.
  assert (Hnow : exists now, registerToken c result a i = Normal now).
  { unfold registerToken.
    destruct (hiddenTokens c) as [hd|]; [simpl|congruence].
    destruct (match hd with [] => None | _ :: _ => find_ignored hd a end);
      [eauto|].
    destruct (hasBalance (result_at result i)); [|eauto].
    destruct (tokensController c); [simpl|congruence].
    destruct (lookup contracts a) eqn:Hm; [simpl; eauto|].
    exfalso. exact (Hts a (or_introl eq_refl) Hm). }
  destruct Hnow as [now ->]. exact IH.
Qed.

Lemma configured_same (w w' : World) :
  same_but_transport (this w) (this w') ->
  web3 (this w') <> None ->
  rejected w' = rejected w ->
  (forall ts, In ts (inflight w') ->
              In ts (inflight w)
              \/ forall a, In a ts -> lookup contracts a <> None) ->
  configured w -> configured w'.
Proof.
  intros (Htc & _ & Hn & _ & _ & Hta & Hht & _) Hw3 Hr Hfl
    (Ctc & Cta & Cht & Cn & _ & Cr & Cfl).
  unfold configured. rewrite Htc, Hta, Hht, Hn, Hr.
  repeat split; try assumption.
  intros ts a Hts Ha. destruct (Hfl ts Hts) as [Hold | Hnew]; eauto.
Qed.

Lemma invoke_detectNewTokens_configured (w : World) :
  configured w -> configured (invoke_detectNewTokens w).
Proof.
  intros Hw.
  assert (Hthis : this (invoke_detectNewTokens w) = fst (detect_begin (this w))).
  { unfold invoke_detectNewTokens.
    destruct (detect_begin (this w)) as [c [|e|o ts]]; reflexivity. }
  assert (Hw3 : web3 (this (invoke_detectNewTokens w)) <> None).
  { rewrite Hthis.
    destruct (detect_begin_this (this w)) as [-> | [p ->]];
      [apply Hw | simpl; discriminate]. }
  assert (Hnot : forall e, snd (detect_begin (this w)) <> Rejected e).
  { destruct Hw as (_ & Cta & Cht & Cn & Cw3 & _).
    intros e. unfold detect_begin. case_if; [discriminate|].
    destruct (_network (this w)) as [n|]; [|congruence].
    case_if; [discriminate|].
    destruct (web3 (this w)); [|congruence].
    destruct (collect_total
                (with_web3 (Some (mkWeb3 (_provider n))) (this w))
                (keys contracts) [] Cta Cht (fun k Hk => Hk)) as [ts ->].
    discriminate. }
  destruct (invoke_detectNewTokens_cases w)
    as (Hsame & [(_ & Hi & [Hr | (e & He & _)]) | (ts & Hb & _ & Hi & Hr)]).
  - apply (configured_same w _ Hsame Hw3 Hr); [|exact Hw].
    intros ts Hts. left. rewrite <- Hi. exact Hts.
  - exfalso. exact (Hnot e He).
  - apply (configured_same w _ Hsame Hw3 Hr); [|exact Hw].
    intros l Hl. rewrite Hi in Hl. apply in_app_iff in Hl.
    destruct Hl as [Hl | [<- | []]]; [left; exact Hl|].
    right. intros a Ha. apply (candidate_iff _ _ _ _ Hb) in Ha.
    destruct Ha as [Hkey _]. destruct (keys_In_lookup a Hkey) as [m ->].
    discriminate.
Qed.

Lemma set_interval_configured (interval : Z) (w : World) :
  configured w -> configured (set_interval interval w).
Proof.
  intros Hw.
  destruct (set_interval_frame interval w) as (_ & Hi & Hr & _ & Hthis).
  apply (configured_same w _ (set_interval_same interval w)); try assumption.
  - destruct Hthis as [-> | [h ->]]; apply Hw.
  - intros ts Hts. left. rewrite <- Hi. exact Hts.
Qed.

Lemma restartTokenDetection_configured (w : World) :
  configured w -> configured (restartTokenDetection w).
Proof.
  intros Hw. unfold restartTokenDetection. case_if; [exact Hw|].
  apply set_interval_configured, invoke_detectNewTokens_configured, Hw.
Qed.

Lemma step_configured (e : Event) (w : World) :
  configured w -> configured (step e w).
Proof.
  intros Hw. destruct e; simpl.
  - case_if; [apply invoke_detectNewTokens_configured|]; exact Hw.
  - apply deliver_preserves; [|exact Hw].
    intros w' Hw'. unfold on_preferences. case_if; [|exact Hw'].
    apply restartTokenDetection_configured.
    destruct Hw' as (? & ? & ? & ? & ? & ? & ?). repeat split; assumption.
  - apply deliver_preserves; [|exact Hw].
    intros w' (? & ? & ? & ? & ? & ? & ?).
    repeat split; try assumption; simpl; discriminate.
  - apply deliver_preserves; [|exact Hw].
    intros w' Hw'. unfold on_keyring. case_if; [|exact Hw'].
    assert (Hd : configured (update_this (with_isUnlocked unlocked) w')).
    { destruct Hw' as (? & ? & ? & ? & ? & ? & ?). repeat split; assumption. }
    case_if; [apply restartTokenDetection_configured|]; exact Hd.
  - destruct (_network (this w)); [|exact Hw].
    destruct Hw as (? & ? & ? & ? & ? & ? & ?).
    repeat split; try assumption. simpl. discriminate.
  - unfold resume_detectNewTokens.
    destruct (nth_error (inflight w) k) as [ts|] eqn:Hk; [|exact Hw].
    destruct Hw as (Ctc & Cta & Cht & Cn & Cw3 & Cr & Cfl).
    assert (Hok : snd (detect_resume (this w) ts reply) = Fulfilled).
    { destruct reply as [error|result]; [reflexivity|]. simpl.
      apply registerAll_fulfilled; try assumption.
      intros a Ha. exact (Cfl ts a (nth_error_In _ _ Hk) Ha). }
    destruct (detect_resume (this w) ts reply) as [effects settled].
    simpl in Hok. subst settled.
    repeat split; try assumption.
    simpl. intros l a Hl Ha. apply In_remove_nth in Hl. eauto.
  - apply invoke_detectNewTokens_configured, Hw.
  - apply restartTokenDetection_configured, Hw.
  - apply set_interval_configured, Hw.
  - destruct network; [|exact Hw].
    destruct Hw as (? & ? & ? & ? & ? & ? & ?).
    repeat split; try assumption; simpl; discriminate.
  - destruct k; [|exact Hw].
    destruct Hw as (? & ? & ? & ? & ? & ? & ?). repeat split; assumption.
  - destruct Hw as (? & ? & ? & ? & ? & ? & ?). repeat split; assumption.
Qed.

Lemma constructor_configured (cfg : Config) :
  cfg_tokensController cfg <> None -> cfg_network cfg <> None ->
  configured (constructor cfg).
Proof.
  intros Htc Hn. unfold constructor, set_interval.
  destruct (cfg_tokensController cfg); [|congruence].
  destruct (cfg_network cfg); [|congruence].
  destruct (cfg_interval cfg) as [i|]; [destruct (Z.eqb i 0)|];
    destruct (cfg_keyringMemStore cfg), (cfg_preferences cfg); simpl;
    unfold configured; simpl;
    repeat split; try discriminate; intros ts a [].
Qed.

(** X15: a controller constructed with its tokens controller and its network
    never throws: whatever happens afterwards, no pass ends in a rejected
    promise (the promises of [addToken] being fulfilled, as above). *)
Theorem complete_controller_never_rejects (cfg : Config) (events : list Event) :
  cfg_tokensController cfg <> None ->
  cfg_network cfg <> None ->
  rejected (run events (constructor cfg)) = [].
Proof.
  intros Htc Hn.
  assert (Hrun : forall evs w, configured w -> configured (run evs w)).
  { induction evs as [|e rest IH]; simpl; intros w Hw; [exact Hw|].
    apply IH, step_configured, Hw. }
  apply (Hrun events _ (constructor_configured cfg Htc Hn)).
Qed.

(** ** More on what a pass and the callbacks leave alone *)

(** X16: whatever way a call of [detectNewTokens] goes, it writes no field of the
    controller but [web3]; when it reaches the fetch, [web3] is bound to the
    provider the network has now, and the call is made for the address
    selected now. *)
Theorem pass_rebinds_transport_only (c : DetectTokensController) :
  same_but_transport c (fst (detect_begin c))
  /\ _handle (fst (detect_begin c)) = _handle c
  /\ (forall owner tokens,
         snd (detect_begin c) = Fetching owner tokens ->
         owner = selectedAddress c
         /\ exists n, _network c = Some n
                      /\ web3 (fst (detect_begin c))
                         = Some (mkWeb3 (_provider n))).
Proof.
  split; [|split].
  - destruct (detect_begin_this c) as [-> | [p ->]]; repeat split.
  - destruct (detect_begin_this c) as [-> | [p ->]]; reflexivity.
  - intros owner tokens Hs.
    destruct (detect_begin c) as [c1 st] eqn:Hb. simpl in Hs. subst st.
    destruct (detect_begin_Fetching _ _ _ _ Hb) as (_ & (n & Hn & _ & ->) & Ho & _).
    split; [exact Ho|]. exists n. split; [exact Hn | reflexivity].
Qed.

(** X17: after the interval is set, a timer armed earlier never fires again: a
    tick of any handle but the new one does nothing. *)
Theorem stale_timer_never_fires (cfg : Config) (events : list Event)
  (interval : Z) (h : Handle) :
  h <> next_handle (run events (constructor cfg)) ->
  step (Tick h) (set_interval interval (run events (constructor cfg)))
  = set_interval interval (run events (constructor cfg)).
Proof.
  intros Hh. simpl.
  assert (Hw : one_timer (run events (constructor cfg)))
    by apply run_one_timer, constructor_one_timer.
  destruct (set_interval_timers interval _ Hw) as [-> _].
  destruct (Z.eqb interval 0); simpl; [reflexivity|].
  destruct (Pos.eqb (next_handle (run events (constructor cfg))) h) eqn:Heq;
    [|reflexivity].
  apply Pos.eqb_eq in Heq. congruence.
Qed.

(** X18: while the conditions of a restart are not met, the callbacks of the
    keyring and of the preferences record what they are told and do nothing
    else: no call, no pass, and the timer is not re-armed. *)
Theorem callbacks_only_record (w : World) (unlocked : flag)
  (selected : option string) :
  (truthy_flag (isOpen (this w)) = false
   \/ truthy_ostring (selectedAddress (this w)) = false ->
   on_keyring unlocked w = w
   \/ on_keyring unlocked w = update_this (with_isUnlocked unlocked) w)
  /\ (truthy_flag (isActive (this w)) = false
      \/ truthy_ostring selected = false ->
      on_preferences selected w = w
      \/ on_preferences selected w
         = update_this (with_selectedAddress selected) w).
Proof.
  split.
  - intros Hcond. unfold on_keyring. case_if; [|left; reflexivity].
    right. case_if; [|reflexivity].
    unfold restartTokenDetection, isActive, js_and. simpl.
    destruct Hcond as [H | H].
    + rewrite H. simpl. rewrite H. reflexivity.
    + rewrite H, andb_false_r. reflexivity.
  - intros Hcond. unfold on_preferences. case_if; [|left; reflexivity].
    right. unfold restartTokenDetection. simpl.
    change (isActive (with_selectedAddress selected (this w)))
      with (isActive (this w)).
    destruct Hcond as [H | H].
    + rewrite H. reflexivity.
    + rewrite H, andb_false_r. reflexivity.
Qed.

Lemma registerToken_result (c : DetectTokensController)
  (result result' : list (option N)) (a : string) (i : nat) :
  result_at result i = result_at result' i ->
  registerToken c result a i = registerToken c result' a i.
Proof. intros H. unfold registerToken. rewrite H. reflexivity. Qed.

Lemma registerAll_result (c : DetectTokensController)
  (result result' : list (option N)) (ts : list string) (i : nat) :
  (forall j, (i <= j < i + List.length ts)%nat ->
             result_at result j = result_at result' j) ->
  registerAll c result ts i = registerAll c result' ts i.
Proof.
  revert i. induction ts as [|a rest IH]; intros i Hsame; simpl; [reflexivity|].
  rewrite (IH (S i)) by (intros j Hj; apply Hsame; simpl; lia).
  rewrite (registerToken_result c result result' a i)
    by (apply Hsame; simpl; lia).
  reflexivity.
Qed.

(** X19: only the first balances of a reply count, one for each candidate: what
    the array holds beyond the length of the request is never read. *)
Theorem surplus_balances_are_ignored (c : DetectTokensController)
  (tokens : list string) (result : list (option N)) :
  detect_resume c tokens (ReplyResult result)
  = detect_resume c tokens (ReplyResult (firstn (List.length tokens) result)).
Proof.
  simpl. apply registerAll_result. intros j Hj.
  unfold result_at. rewrite nth_error_firstn.
  destruct (Nat.ltb j (List.length tokens)) eqn:Hlt; [reflexivity|].
  apply Nat.ltb_ge in Hlt. lia.
Qed.

(** X20: a reply without a balance other than zero registers nothing, whatever
    the state of the controller. *)
Theorem no_balance_no_registration (c : DetectTokensController)
  (tokens : list string) (result : list (option N)) :
  (forall i b, nth_error result i = Some (Some b) -> b = 0%N) ->
  fst (detect_resume c tokens (ReplyResult result)) = [].
Proof.
  intros Hzero.
  destruct (fst (detect_resume c tokens (ReplyResult result))) as [|e rest] eqn:He;
    [reflexivity|].
  exfalso.
  assert (Hin : In e (fst (detect_resume c tokens (ReplyResult result))))
    by (rewrite He; left; reflexivity).
  simpl in Hin. apply registerAll_In in Hin.
  destruct Hin as (k & a & _ & Hin).
  apply registerToken_effects in Hin.
  destruct Hin as (m & _ & _ & Hbal & _).
  unfold hasBalance, result_at in Hbal.
  destruct (nth_error result (0 + k)) as [[b|]|] eqn:Hn; try discriminate.
  rewrite (Hzero _ _ Hn) in Hbal. discriminate.
Qed.

End Controller.




Lemma detectNewTokens_gate_witness :
  detectNewTokens mainnet book
    (with_isOpen (Some false) (active_controller [] [])) no_balance untouched
  = ([], Fulfilled).
Proof.
  apply (detectNewTokens_gate mainnet book
           (with_isOpen (Some false) (active_controller [] []))
           no_balance untouched).
  left. vm_compute. discriminate.
Defined.

Lemma fetch_failure_witness :
  detectNewTokens mainnet book (active_controller [] []) unreachable_node untouched
  = ([Balances (Some account) [dai; usdc];
      Warn fetch_failed_message "timeout"], Fulfilled).
Proof.
  apply (fetch_failure_warns_once mainnet book (active_controller [] [])
           (active_controller [] []) unreachable_node untouched
           (Some account) [dai; usdc] "timeout").
  - vm_compute. reflexivity.
  - vm_compute. reflexivity.
Defined.


Lemma restartTokenDetection_witness :
  let closed := run mainnet book (open_and_unlock ++ [AssignIsOpen None])%list
                  (constructor full_config) in
  let w := run mainnet book open_and_unlock (constructor full_config) in
  restartTokenDetection mainnet book closed = closed
  /\ timers (restartTokenDetection mainnet book w) = [(next_handle w, 180000%Z)]
  /\ calls (restartTokenDetection mainnet book w)
     = calls (invoke_detectNewTokens mainnet book w).
Proof.
  intros closed w.
  destruct (restartTokenDetection_restarts mainnet book full_config
              (open_and_unlock ++ [AssignIsOpen None])%list) as [Hclosed _].
  destruct (restartTokenDetection_restarts mainnet book full_config
              open_and_unlock) as [_ Hopen].
  split; [|split].
  - apply Hclosed. left. vm_compute. reflexivity.
  - apply Hopen; vm_compute; reflexivity.
  - apply Hopen; vm_compute; reflexivity.
Defined.

(** C7, as the claim has it: after the default interval the interval is set
    to zero; no timer is armed, and the handle is still there. *)
Lemma handle_kept_when_polling_disabled :
  let w := run mainnet book [AssignInterval 0] (constructor full_config) in
  timers w = []
  /\ ~ (_handle (this w) <> None <-> (0 < 0)%Z).
Proof.
  intros w. split; [vm_compute; reflexivity|].
  intros [H _].
  assert (Hlt : (0 < 0)%Z) by (apply H; vm_compute; discriminate).
  lia.
Qed.

Lemma inactive_until_host_opens_witness :
  let w := run mainnet book
             [KeyringChanged (Some true); Tick 1%positive; CallDetectNewTokens;
              PreferencesChanged (Some dai); CallRestartTokenDetection]
             (constructor full_config) in
  isOpen (this w) = None /\ calls w = []
  /\ restartTokenDetection mainnet book w = w.
Proof.
  intros w.
  destruct (inactive_until_host_opens mainnet book full_config
              [KeyringChanged (Some true); Tick 1%positive; CallDetectNewTokens;
               PreferencesChanged (Some dai); CallRestartTokenDetection])
    as [(Ho & _ & Hc & _ & _ & Hr) _].
  - repeat constructor.
  - split; [exact Ho | split; [exact Hc | exact Hr]].
Defined.

Lemma missing_tokensController_witness :
  let w := run mainnet book open_and_unlock
             (constructor config_without_tokensController) in
  tokenAddresses (this w) = None
  /\ detectNewTokens mainnet book (this w) no_balance untouched
     = ([], RejectedWith (TypeError "this.tokenAddresses")).
Proof.
  intros w.
  destruct (missing_tokensController_rejects mainnet book
              config_without_tokensController
              open_and_unlock no_balance untouched) as (Ht & _ & _ & Hd & _).
  - vm_compute. reflexivity.
  - vm_compute. reflexivity.
  - exists (mkNetwork mainnet "provider"). split; vm_compute; reflexivity.
  - exists dai, (mkContract "DAI" 18 true). split; vm_compute; reflexivity.
  - split; assumption.
Defined.

(** ** The further properties at work *)

Lemma candidates_in_book_order_witness :
  [dai; usdc] = filter (candidateb book (active_controller [] [])) (keys book)
  /\ (NoDup (keys book) -> NoDup [dai; usdc]).
Proof.
  apply (candidates_in_book_order mainnet book (active_controller [] [])
           (active_controller [] []) (Some account) [dai; usdc]).
  vm_compute. reflexivity.
Defined.

Lemma book_without_erc20_witness :
  detectNewTokens mainnet collectibles_book bare_controller no_balance untouched
  = (Balances (selectedAddress bare_controller) []
     :: match no_balance (selectedAddress bare_controller) [] with
        | ReplyError error => [Warn fetch_failed_message error]
        | ReplyResult _ => []
        end, Fulfilled).
Proof.
  apply (book_without_erc20_fetches_nothing mainnet collectibles_book
           bare_controller (mkNetwork mainnet "provider") (mkWeb3 "provider")
           no_balance untouched).
  - vm_compute. reflexivity.
  - vm_compute. reflexivity.
  - vm_compute. reflexivity.
  - vm_compute. reflexivity.
  - intros a (m & Hm & He). unfold lookup, collectibles_book in Hm.
    destruct (String.eqb kitties a); [|discriminate Hm].
    injection Hm as <-. discriminate He.
Defined.


Lemma pass_makes_no_call_twice_witness :
  NoDup (fst (detectNewTokens mainnet book (active_controller [] [])
                five_dai untouched)).
Proof.
  apply (pass_makes_no_call_twice mainnet book (active_controller [] [])
           five_dai untouched).
  vm_compute.
  repeat constructor; simpl; intros H;
    repeat (destruct H as [H | H]; [discriminate H|]); exact H.
Defined.

Lemma passes_overlap_witness :
  let w := run mainnet book open_and_unlock (constructor full_config) in
  inflight (invoke_detectNewTokens mainnet book
              (invoke_detectNewTokens mainnet book w))
  = (inflight w ++ [[dai; usdc]; [dai; usdc]])%list.
Proof.
  intros w.
  apply (passes_overlap mainnet book w (this w)
           (Some account) [dai; usdc] (ReplyResult [Some 5%N; Some 0%N])).
  vm_compute. reflexivity.
Defined.

Lemma registrations_are_accounted_witness :
  let events := (open_and_unlock
                 ++ [BalancesReplied 0 (ReplyResult [Some 5%N; Some 0%N])])%list in
  from_book book dai "DAI" 18
  /\ exists owner tokens,
       In (Balances owner tokens)
          (calls (run mainnet book events (constructor full_config)))
       /\ In dai tokens.
Proof.
  intros events.
  apply (registrations_are_accounted mainnet book full_config events
           dai "DAI" 18).
  vm_compute. right. left. reflexivity.
Defined.

Lemma complete_controller_never_rejects_witness :
  rejected (run mainnet book
              (open_and_unlock
               ++ [TokensChanged None None; Tick 2%positive;
                   BalancesReplied 1 (ReplyResult [Some 5%N]);
                   BalancesReplied 0 (ReplyError "timeout")])%list
              (constructor full_config)) = [].
Proof.
  apply (complete_controller_never_rejects mainnet book full_config);
    vm_compute; intros H; discriminate H.
Defined.

Lemma notification_acts_once_witness :
  step mainnet book (KeyringChanged (Some true))
    (constructor config_without_preferences)
  = on_keyring mainnet book (Some true) (constructor config_without_preferences)
  /\ step mainnet book (PreferencesChanged (Some dai))
       (constructor config_without_preferences)
     = constructor config_without_preferences
  /\ step mainnet book (PreferencesChanged (Some dai))
       (constructor config_without_keyring)
     = on_preferences mainnet book (Some dai) (constructor config_without_keyring)
  /\ step mainnet book (KeyringChanged (Some true))
       (constructor config_without_keyring)
     = constructor config_without_keyring.
Proof.
  destruct (notification_acts_once mainnet book
              (constructor config_without_preferences) (Some true) (Some dai))
    as (Hk & _ & _ & Hnp).
  destruct (notification_acts_once mainnet book
              (constructor config_without_keyring) (Some true) (Some dai))
    as (_ & Hp & Hnk & _).
  split; [|split; [|split]].
  - apply Hk. vm_compute. left. reflexivity.
  - apply Hnp. vm_compute. intros [H | [H | []]]; discriminate H.
  - apply Hp. vm_compute. left. reflexivity.
  - apply Hnk. vm_compute. intros [H | [H | []]]; discriminate H.
Defined.

Lemma keyring_callback_witness :
  let w := run mainnet book open_and_unlock (constructor full_config) in
  on_keyring mainnet book (Some true) w = w
  /\ on_keyring mainnet book (Some false) w
     = update_this (with_isUnlocked (Some false)) w
  /\ on_keyring mainnet book (Some true) (constructor full_config)
     = restartTokenDetection mainnet book
         (update_this (with_isUnlocked (Some true)) (constructor full_config)).
Proof.
  intros w.
  destruct (keyring_callback mainnet book (Some true) w) as (Hsame & _).
  destruct (keyring_callback mainnet book (Some false) w) as (_ & Hlock & _).
  destruct (keyring_callback mainnet book (Some true) (constructor full_config))
    as (_ & _ & Hunlock & _).
  split; [|split].
  - apply Hsame. vm_compute. reflexivity.
  - apply Hlock; vm_compute; [intros H; discriminate H | reflexivity].
  - apply Hunlock; vm_compute; [intros H; discriminate H | reflexivity].
Defined.

Lemma account_switch_witness :
  let w := run mainnet book open_and_unlock (constructor full_config) in
  on_preferences mainnet book (Some account) w = w.
Proof.
  intros w.
  apply (account_switch_fetches_for_new_account mainnet book (Some account) w).
  vm_compute. reflexivity.
Defined.


Lemma failed_fetch_witness :
  let w := run mainnet book open_and_unlock (constructor full_config) in
  calls (resume_detectNewTokens book 0 (ReplyError "timeout") w)
  = (calls w ++ [Warn fetch_failed_message "timeout"])%list
  /\ timers (resume_detectNewTokens book 0 (ReplyError "timeout") w) = timers w.
Proof.
  intros w.
  destruct (failed_fetch_keeps_polling mainnet book 0 "timeout" [dai; usdc] w)
    as (_ & Ht & Hc & _).
  - vm_compute. reflexivity.
  - split; [exact Hc | exact Ht].
Defined.

Lemma off_mainnet_witness :
  let w := run mainnet book open_and_unlock (constructor testnet_config) in
  let events := [Tick 2%positive; CallDetectNewTokens;
                 PreferencesChanged (Some dai); KeyringChanged (Some false);
                 KeyringChanged (Some true); CallRestartTokenDetection] in
  calls (run mainnet book events w) = calls w
  /\ calls w = [].
Proof.
  intros w events.
  destruct (off_mainnet_is_silent mainnet book events w) as (_ & Hc & _).
  - exists (mkNetwork ropsten "provider"). split.
    + vm_compute. reflexivity.
    + vm_compute. intros H. discriminate H.
  - repeat constructor.
  - split; [exact Hc | vm_compute; reflexivity].
Defined.

Lemma pass_rebinds_transport_witness :
  Some account = selectedAddress (active_controller [] [])
  /\ exists n, _network (active_controller [] []) = Some n
               /\ web3 (fst (detect_begin mainnet book (active_controller [] [])))
                  = Some (mkWeb3 (_provider n)).
Proof.
  destruct (pass_rebinds_transport_only mainnet book (active_controller [] []))
    as (_ & _ & H).
  apply (H (Some account) [dai; usdc]).
  vm_compute. reflexivity.
Defined.

Lemma stale_timer_witness :
  step mainnet book (Tick 1%positive)
    (set_interval 1000 (run mainnet book open_and_unlock (constructor full_config)))
  = set_interval 1000 (run mainnet book open_and_unlock (constructor full_config)).
Proof.
  apply (stale_timer_never_fires mainnet book full_config open_and_unlock
           1000 1%positive).
  vm_compute. intros H. discriminate H.
Defined.

Lemma callbacks_only_record_witness :
  (on_keyring mainnet book (Some true) (constructor full_config)
   = constructor full_config
   \/ on_keyring mainnet book (Some true) (constructor full_config)
      = update_this (with_isUnlocked (Some true)) (constructor full_config))
  /\ (on_preferences mainnet book (Some dai) (constructor full_config)
      = constructor full_config
      \/ on_preferences mainnet book (Some dai) (constructor full_config)
         = update_this (with_selectedAddress (Some dai)) (constructor full_config)).
Proof.
  destruct (callbacks_only_record mainnet book (constructor full_config)
              (Some true) (Some dai)) as [Hk Hp].
  split.
  - apply Hk. left. vm_compute. reflexivity.
  - apply Hp. left. vm_compute. reflexivity.
Defined.

Lemma no_balance_no_registration_witness :
  fst (detect_resume book (active_controller [] []) [dai; usdc]
         (ReplyResult [Some 0%N; None])) = [].
Proof.
  apply (no_balance_no_registration book (active_controller [] [])
           [dai; usdc] [Some 0%N; None]).
  intros i b H.
  destruct i as [|[|i]]; simpl in H;
    [injection H as <-; reflexivity | discriminate H | destruct i; discriminate H].
Defined.
